(** * Credit ledger and request admission of the image-description service

    A shallow embedding of [src/app/server.py] (the variant guarded by an
    API key), [src/server.py] (the variant without one) and the response
    model of [src/app/analyser.py], followed by the properties of the
    credit gate and of the admission layer.

    Conventions of the embedding.
    - Python integers are [Z]; Python [str] is [string].
    - The SQLite file is a [database]: either it has no [user_credits]
      table yet, or it holds the table as a finite map from [user_id]
      (UNIQUE NOT NULL) to [credits].  The [id] column is never read by
      the program and is left out.
    - Every [with sqlite3.connect(...)] block runs one statement and
      commits, so each statement is one atomic transition of the database.
    - Python code that may raise is written in an exception-and-state
      monad [py]; pure code that may raise in [result]. *)

From Stdlib Require Import ZArith Lia.
From stdpp Require Import base option list gmap strings.

Set Warnings "-register-all".
Local Open Scope string_scope.
Local Open Scope list_scope.
Local Open Scope Z_scope.

(** ** Python exceptions and the two monads *)

(** The exception classes the handlers distinguish, each carrying the
    text that [str(e)] returns. *)
Inductive exn : Type :=
| ValueError (msg : string)
| AttributeError (msg : string)
| OperationalError (msg : string)
| LengthFinishReasonError (msg : string)
| OtherException (msg : string).

Definition str (e : exn) : string :=
  match e with
  | ValueError msg | AttributeError msg | OperationalError msg
  | LengthFinishReasonError msg | OtherException msg => msg
  end.

Inductive result (A : Type) : Type :=
| Return (a : A)
| Raise (e : exn).
Arguments Return {A} a.
Arguments Raise {A} e.

Definition result_bind {A B} (r : result A) (k : A -> result B) : result B :=
  match r with
  | Return a => k a
  | Raise e => Raise e
  end.

(** The table [user_credits], and the database file that may lack it. *)
Abbreviation table := (gmap string Z).
Abbreviation database := (option (gmap string Z)).

Definition py (A : Type) : Type := database -> result A * database.

Definition ret {A} (a : A) : py A := fun db => (Return a, db).
Definition raise {A} (e : exn) : py A := fun db => (Raise e, db).
Definition bind {A B} (c : py A) (k : A -> py B) : py B :=
  fun db =>
    match c db with
    | (Return a, db') => k a db'
    | (Raise e, db') => (Raise e, db')
    end.
Definition lift {A} (r : result A) : py A := fun db => (r, db).

(** [try: c  except Exception as e: ...] hands the outcome of [c] to the
    code that follows as a value. *)
Definition try_except {A} (c : py A) : py (result A) :=
  fun db => let '(r, db') := c db in (Return r, db').

Declare Scope py_scope.
Delimit Scope py_scope with py.
Notation "x <- c ;; k" := (bind c (fun x => k))
  (at level 100, c at next level, right associativity) : py_scope.
Notation "c ;; k" := (bind c (fun _ => k))
  (at level 100, right associativity) : py_scope.

Declare Scope result_scope.
Delimit Scope result_scope with result.
Notation "x <- c ;; k" := (result_bind c (fun x => k))
  (at level 100, c at next level, right associativity) : result_scope.

(** ** Database functions (identical in both server files) *)

(** What sqlite3 raises when a statement names a table that is not there. *)
Definition no_such_table : exn :=
  OperationalError "no such table: user_credits".

(** The column default [credits INTEGER NOT NULL DEFAULT 10]. *)
Definition default_credits : Z := 10.

(** [CREATE TABLE IF NOT EXISTS user_credits (...)] *)
Definition create_table_if_not_exists : py unit :=
  fun db =>
    match db with
    | Some t => (Return tt, Some t)
    | None => (Return tt, Some ∅)
    end.

(** [SELECT credits FROM user_credits WHERE user_id = ?] with [fetchone()] *)
Definition select_credits (user_id : string) : py (option Z) :=
  fun db =>
    match db with
    | Some t => (Return (t !! user_id), db)
    | None => (Raise no_such_table, db)
    end.

(** [INSERT INTO user_credits (user_id, credits) VALUES (?, ?)
     ON CONFLICT(user_id) DO UPDATE SET credits=excluded.credits].
    The statement itself; the amount bound to it is a SQLite INTEGER (see
    [sqlite_integer] below): sqlite3 refuses to bind a Python [int] outside
    the signed 64-bit range before the statement runs. *)
Definition upsert_credits (user_id : string) (credit_amount : Z) : py unit :=
  fun db =>
    match db with
    | Some t => (Return tt, Some (<[user_id := credit_amount]> t))
    | None => (Raise no_such_table, db)
    end.

(** [INSERT OR IGNORE INTO user_credits (user_id) VALUES (?)] *)
Definition insert_or_ignore (user_id : string) : py unit :=
  fun db =>
    match db with
    | Some t =>
        match t !! user_id with
        | Some _ => (Return tt, Some t)
        | None => (Return tt, Some (<[user_id := default_credits]> t))
        end
    | None => (Raise no_such_table, db)
    end.

Definition init_db : py unit := create_table_if_not_exists.

Definition get_user_credits (user_id : string) : py (option Z) :=
  (row <- select_credits user_id ;;
   ret row)%py.

Definition set_user_credits (user_id : string) (credit_amount : Z) : py unit :=
  upsert_credits user_id credit_amount.

Definition no_more_credits : exn := ValueError "No more credits left".

Definition require_credits (user_id : string) : py unit :=
  (insert_or_ignore user_id ;;
   current_credits <- get_user_credits user_id ;;
   match current_credits with
   | None => raise no_more_credits
   | Some c =>
       if (c <? 1)%Z then raise no_more_credits
       else set_user_credits user_id (c - 1)
   end)%py.

(** ** JSON values, requests and responses *)

(** A decoded JSON document, as [request.json] hands it to a view and as
    [jsonify] receives it.  Numbers are kept as integers: the handlers only
    test a number for being zero. *)
Inductive json_value : Type :=
| JNull
| JBool (b : bool)
| JNum (n : Z)
| JStr (s : string)
| JArr (items : list json_value)
| JObj (fields : list (string * json_value)).

(** Python truth value of a decoded JSON document ([not x] is its negation). *)
Definition truthy (v : json_value) : bool :=
  match v with
  | JNull => false
  | JBool b => b
  | JNum n => negb (n =? 0)%Z
  | JStr s => negb (s =? "")%string
  | JArr items => match items with [] => false | _ => true end
  | JObj fields => match fields with [] => false | _ => true end
  end.

(** Truth value of a header or of a [refusal]: [None] and [''] are false. *)
Definition truthy_str (o : option string) : bool :=
  match o with
  | Some s => negb (s =? "")%string
  | None => false
  end.

Definition type_name (v : json_value) : string :=
  match v with
  | JNull => "NoneType"
  | JBool _ => "bool"
  | JNum _ => "int"
  | JStr _ => "str"
  | JArr _ => "list"
  | JObj _ => "dict"
  end.

Definition no_attribute (ty attr : string) : exn :=
  AttributeError ("'" +:+ ty +:+ "' object has no attribute '" +:+ attr +:+ "'").

Fixpoint dict_lookup (fields : list (string * json_value)) (key : string)
  : option json_value :=
  match fields with
  | [] => None
  | (k, v) :: rest => if (k =? key)%string then Some v else dict_lookup rest key
  end.

(** [data.get(key)]: the value, [None] for an absent key, and an
    [AttributeError] when [data] is not a dict. *)
Definition get (data : json_value) (key : string) : result json_value :=
  match data with
  | JObj fields =>
      match dict_lookup fields key with
      | Some v => Return v
      | None => Return JNull
      end
  | _ => Raise (no_attribute (type_name data) "get")
  end.

(** What a view reads of a request whose body decodes: the two headers and
    the document that [request.json] returns.  Requests whose body it cannot
    decode are those of [wire_request] below. *)
Record request : Type := {
  x_api_key : option string;
  x_user_id : option string;
  request_json : json_value
}.

(** A view returns [jsonify(d), status]; a bare [jsonify(d)] has status 200. *)
Definition response : Type := json_value * Z.

Definition jsonify (d : list (string * json_value)) : json_value := JObj d.

Definition error_body (msg : string) : json_value :=
  jsonify [("error", JStr msg)].

(** [@app.errorhandler(500)]: Flask calls it for an exception that leaves
    a view. *)
Definition server_error (e : exn) : response :=
  (error_body "Internal server error", 500).

Definition dispatch (view : py response) (db : database) : response * database :=
  match view db with
  | (Return r, db') => (r, db')
  | (Raise e, db') => (server_error e, db')
  end.

(** ** Requests as they arrive

    [request.json] decodes the body when a view reads it.  On a body that
    is not JSON it raises one of werkzeug's HTTP exceptions instead; these
    are not caught by the views, and no handler is registered for them, so
    Flask answers with its own page for the exception. *)
Inductive json_fault : Type :=
| BadRequest
| UnsupportedMediaType.

Definition fault_status (f : json_fault) : Z :=
  match f with
  | BadRequest => 400
  | UnsupportedMediaType => 415
  end.

(** The two headers, and what [request.json] does on the body: it returns
    the decoded document or raises. *)
Record wire_request : Type := {
  wire_api_key : option string;
  wire_user_id : option string;
  wire_json : json_value + json_fault
}.

(** What the client receives: a response built by the program, or Flask's
    page for an HTTP exception, which is not JSON. *)
Inductive wire_response : Type :=
| JsonBody (r : response)
| ErrorPage (status : Z).

Definition wire_status (r : wire_response) : Z :=
  match r with
  | JsonBody r => r.2
  | ErrorPage status => status
  end.

(** The request a view works on once [request.json] has returned [data]. *)
Definition decoded (w : wire_request) (data : json_value) : request :=
  {| x_api_key := wire_api_key w;
     x_user_id := wire_user_id w;
     request_json := data |}.

Definition as_json (out : response * database) : wire_response * database :=
  (JsonBody out.1, out.2).

(** ** The collaborator's answer ([src/app/analyser.py]) *)

Record PictureDescription : Type := {
  name : string;
  description : string;
  fun_facts : list string
}.

(** Attribute access on a [PictureDescription]: it has the three declared
    fields and no other. *)
Definition getattr (p : PictureDescription) (attr : string) : result json_value :=
  if (attr =? "name")%string then Return (JStr (name p))
  else if (attr =? "description")%string then Return (JStr (description p))
  else if (attr =? "fun_facts")%string then Return (JArr (JStr <$> fun_facts p))
  else Raise (no_attribute "PictureDescription" attr).

(** [completion.choices[i].message], with the two fields the views read. *)
Record message : Type := {
  parsed : option PictureDescription;
  refusal : option string
}.

(** [client.beta.chat.completions.parse(...)], seen from the views: from
    the language tag and the image it yields the list of choices, or
    raises. *)
Definition openai_client : Type :=
  json_value -> json_value -> result (list message).

Definition first_choice (choices : list message) : result message :=
  match choices with
  | m :: _ => Return m
  | [] => Raise (OtherException "list index out of range")
  end.

Definition process_image_recognition (client : openai_client)
    (lang image : json_value) : result message :=
  (completion <- client lang image ;;
   first_choice completion)%result.

(** [user_credits or 0] *)
Definition or_zero (user_credits : option Z) : Z :=
  match user_credits with
  | Some c => if (c =? 0)%Z then 0 else c
  | None => 0
  end.

(** [isinstance(e, LengthFinishReasonError)] *)
Definition is_length_finish (e : exn) : bool :=
  match e with
  | LengthFinishReasonError _ => true
  | _ => false
  end.

(** Whether [except ValueError] catches [e]. *)
Definition is_value_error (e : exn) : bool :=
  match e with
  | ValueError _ => true
  | _ => false
  end.

(** ** [src/app/server.py]: the variant guarded by an API key *)
Module App.
Section create_app.
Variable client : openai_client.
(** [os.getenv('API_KEY')] *)
Variable api_key : option string.

Definition require_api_key_and_user_id
    (f : string -> request -> py response) (req : request) : py response :=
  let api_key_param := x_api_key req in
  if negb (truthy_str api_key_param) || bool_decide (api_key_param ≠ api_key)
  then ret (error_body "Invalid API key", 422)
  else
    match x_user_id req with
    | Some user_id =>
        if negb (truthy_str (Some user_id))
        then ret (error_body "Missing required user ID", 422)
        else f user_id req
    | None => ret (error_body "Missing required user ID", 422)
    end.

Definition credits_left_view (user_id : string) (req : request) : py response :=
  (user_credits <- get_user_credits user_id ;;
   ret (jsonify [("credits", JNum (or_zero user_credits))], 200))%py.

(** The body of the second [try] block. *)
Definition describe (lang image : json_value) : result response :=
  (response_content <- process_image_recognition client lang image ;;
   match parsed response_content with
   | Some p =>
       n <- getattr p "name" ;;
       d <- getattr p "description" ;;
       s <- getattr p "synonyms" ;;
       Return (jsonify [("name", n); ("description", d); ("synonyms", s)], 200)
   | None =>
       if truthy_str (refusal response_content)
       then Return (error_body "Image is not processable", 422)
       else Return (error_body "Image cannot be identified", 422)
   end)%result.

Definition analyze_image_view (user_id : string) (req : request) : py response :=
  let data := request_json req in
  if negb (truthy data) then ret (error_body "No data provided", 422)
  else
    (lang <- lift (get data "lang") ;;
     image <- lift (get data "image") ;;
     if negb (truthy lang) || negb (truthy image)
     then ret (error_body "Missing required fields", 422)
     else
       gate_result <- try_except (require_credits user_id) ;;
       match gate_result with
       | Raise e =>
           if is_value_error e then ret (error_body (str e), 402)
           else ret (error_body (str e), 500)
       | Return _ =>
           match describe lang image with
           | Return r => ret r
           | Raise e =>
               if is_length_finish e then ret (error_body "Image too big", 422)
               else ret (error_body (str e), 500)
           end
       end)%py.

(** [GET /credits] and [POST /analyze/image] as Flask serves them. *)
Definition credits_left (req : request) : database -> response * database :=
  dispatch (require_api_key_and_user_id credits_left_view req).

Definition analyze_image (req : request) : database -> response * database :=
  dispatch (require_api_key_and_user_id analyze_image_view req).

(** [GET /credits] on a request as it arrives: the body is never read. *)
Definition serve_credits_left (w : wire_request) (db : database)
  : wire_response * database :=
  as_json (credits_left (decoded w JNull) db).

(** [POST /analyze/image] on a request as it arrives.  The decorator reads
    the headers only; the first statement of the view, [data = request.json],
    returns the decoded body or raises, and the exception leaves the view. *)
Definition serve_analyze_image (w : wire_request) (db : database)
  : wire_response * database :=
  let api_key_param := wire_api_key w in
  if negb (truthy_str api_key_param) || bool_decide (api_key_param ≠ api_key)
  then (JsonBody (error_body "Invalid API key", 422), db)
  else
    match wire_user_id w with
    | Some user_id =>
        if negb (truthy_str (Some user_id))
        then (JsonBody (error_body "Missing required user ID", 422), db)
        else
          match wire_json w with
          | inl data =>
              as_json (dispatch (analyze_image_view user_id (decoded w data)) db)
          | inr fault => (ErrorPage (fault_status fault), db)
          end
    | None => (JsonBody (error_body "Missing required user ID", 422), db)
    end.
End create_app.
End App.

(** ** [src/server.py]: the variant without an API key *)
Module Standalone.
Section create_app.
Variable client : openai_client.

Definition credits_left_view (req : request) : py response :=
  match x_user_id req with
  | Some user_id =>
      if negb (truthy_str (Some user_id))
      then ret (error_body "Missing required user ID", 422)
      else
        (user_credits <- get_user_credits user_id ;;
         ret (jsonify [("credits", JNum (or_zero user_credits))], 200))%py
  | None => ret (error_body "Missing required user ID", 422)
  end.

(** The body of the second [try] block; the collaborator call is inline. *)
Definition describe (lang image : json_value) : result response :=
  (completion <- client lang image ;;
   response_content <- first_choice completion ;;
   match parsed response_content with
   | Some p =>
       n <- getattr p "name" ;;
       d <- getattr p "description" ;;
       f <- getattr p "fun_facts" ;;
       Return (jsonify [("name", n); ("description", d); ("funFacts", f)], 200)
   | None =>
       if truthy_str (refusal response_content)
       then Return (error_body "Image is not processable", 422)
       else Return (error_body "Image cannot be identified", 422)
   end)%result.

Definition gate_and_describe (user_id : string) (lang image : json_value)
  : py response :=
  (gate_result <- try_except (require_credits user_id) ;;
   match gate_result with
   | Raise e =>
       if is_value_error e then ret (error_body (str e), 402)
       else ret (error_body (str e), 500)
   | Return _ =>
       match describe lang image with
       | Return r => ret r
       | Raise e =>
           if is_length_finish e then ret (error_body "Image too big", 422)
           else ret (error_body (str e), 500)
       end
   end)%py.

Definition analyze_image_view (req : request) : py response :=
  let data := request_json req in
  if negb (truthy data) then ret (error_body "No data provided", 422)
  else
    (lang <- lift (get data "lang") ;;
     image <- lift (get data "image") ;;
     if negb (truthy lang) || negb (truthy image)
     then ret (error_body "Missing required fields", 422)
     else
       match x_user_id req with
       | Some user_id =>
           if negb (truthy_str (Some user_id))
           then ret (error_body "Missing required user ID", 422)
           else gate_and_describe user_id lang image
       | None => ret (error_body "Missing required user ID", 422)
       end)%py.

Definition credits_left (req : request) : database -> response * database :=
  dispatch (credits_left_view req).

Definition analyze_image (req : request) : database -> response * database :=
  dispatch (analyze_image_view req).

(** [GET /credits] on a request as it arrives: the body is never read. *)
Definition serve_credits_left (w : wire_request) (db : database)
  : wire_response * database :=
  as_json (credits_left (decoded w JNull) db).

(** [POST /analyze/image] on a request as it arrives: [data = request.json]
    is the first statement of the view, before any header is read. *)
Definition serve_analyze_image (w : wire_request) (db : database)
  : wire_response * database :=
  match wire_json w with
  | inl data => as_json (analyze_image (decoded w data) db)
  | inr fault => (ErrorPage (fault_status fault), db)
  end.
End create_app.
End Standalone.

(** ** Calls of [require_credits] running one after the other *)

(** The outcome of the gate as the specification names it. *)
Inductive admission : Type := Ok | Denied | StoreError.

#[global] Instance admission_eq_dec : EqDecision admission.
Proof. solve_decision. Defined.

Definition admission_of (r : result unit) : admission :=
  match r with
  | Return _ => Ok
  | Raise e => if is_value_error e then Denied else StoreError
  end.

Definition credit_gate (user_id : string) (db : database) : admission * database :=
  let '(r, db') := require_credits user_id db in (admission_of r, db').

(** The balance the table holds for a user. *)
Definition balance (db : database) (user_id : string) : option Z :=
  match db with
  | Some t => t !! user_id
  | None => None
  end.

(** [n] calls in sequence: the outcome of each call and the balance it
    leaves, in order, and the final database. *)
Fixpoint credit_gate_seq (n : nat) (user_id : string) (db : database)
  : list (admission * option Z) * database :=
  match n with
  | O => ([], db)
  | S n' =>
      let '(a, db') := credit_gate user_id db in
      let '(rest, db'') := credit_gate_seq n' user_id db' in
      ((a, balance db' user_id) :: rest, db'')
  end.

Definition count_ok (outcomes : list admission) : nat :=
  length (filter (λ a, a = Ok) outcomes).

(** ** Calls of [require_credits] running at the same time

    Each of the three [with sqlite3.connect(...)] blocks of a call commits on
    its own, and nothing in the program holds a lock from one block to the
    next: between two blocks of one call, blocks of other calls may run.
    Here every block gets the lock of the file; blocks that fail on it are
    those of [Contention] below. *)
Module Interleaving.

(** Where a call of [require_credits] stands. *)
Inductive progress : Type :=
| BeforeInsert
| BeforeSelect
| BeforeUpdate (current_credits : Z)
| Finished (outcome : result unit).

(** The next block of a call. *)
Definition step (user_id : string) (p : progress) (db : database)
  : progress * database :=
  match p with
  | BeforeInsert =>
      match insert_or_ignore user_id db with
      | (Return _, db') => (BeforeSelect, db')
      | (Raise e, db') => (Finished (Raise e), db')
      end
  | BeforeSelect =>
      match get_user_credits user_id db with
      | (Return current_credits, db') =>
          match current_credits with
          | None => (Finished (Raise no_more_credits), db')
          | Some c =>
              if (c <? 1)%Z then (Finished (Raise no_more_credits), db')
              else (BeforeUpdate c, db')
          end
      | (Raise e, db') => (Finished (Raise e), db')
      end
  | BeforeUpdate c =>
      match set_user_credits user_id (c - 1) db with
      | (r, db') => (Finished r, db')
      end
  | Finished r => (Finished r, db)
  end.

(** The calls in flight, each with the user it serves. *)
Abbreviation calls := (list (string * progress)).

(** A schedule names, block after block, the call that runs next. *)
Fixpoint run (schedule : list nat) (cs : calls) (db : database)
  : calls * database :=
  match schedule with
  | [] => (cs, db)
  | i :: rest =>
      match cs !! i with
      | Some (user_id, p) =>
          let '(p', db') := step user_id p db in
          run rest (<[i := (user_id, p')]> cs) db'
      | None => run rest cs db
      end
  end.

Definition outcome (c : string * progress) : option admission :=
  match c.2 with
  | Finished r => Some (admission_of r)
  | _ => None
  end.

Definition all_finished (cs : calls) : bool :=
  forallb (λ c, match outcome c with Some _ => true | None => false end) cs.

Definition outcomes (cs : calls) : list admission :=
  omap outcome cs.

(** [n] calls for one user, none of them started. *)
Definition fresh_calls (n : nat) (user_id : string) : calls :=
  replicate n (user_id, BeforeInsert).

(** One call run from start to end with no other call in between. *)
Definition run_alone (user_id : string) (db : database) : progress * database :=
  let '(p1, db1) := step user_id BeforeInsert db in
  let '(p2, db2) := step user_id p1 db1 in
  step user_id p2 db2.

End Interleaving.

(** ** Predicates used in the statements *)

(** No stored balance is below zero. *)
Definition non_negative (db : database) : Prop :=
  ∀ user_id b, balance db user_id = Some b → 0 ≤ b.

(** The request passes both checks of [require_api_key_and_user_id] and
    carries [user_id]. *)
Definition authorized (api_key : option string) (req : request)
    (user_id : string) : Prop :=
  truthy_str (x_api_key req) = true ∧ x_api_key req = api_key ∧
  x_user_id req = Some user_id ∧ truthy_str (Some user_id) = true.

(** The request carries [user_id] as its identity. *)
Definition identified (req : request) (user_id : string) : Prop :=
  x_user_id req = Some user_id ∧ truthy_str (Some user_id) = true.

(** The JSON body is a non-empty object whose language tag is [lang] and
    whose image payload is [image], both true in Python's sense. *)
Definition payload (req : request) (lang image : json_value) : Prop :=
  truthy (request_json req) = true ∧
  get (request_json req) "lang" = Return lang ∧
  get (request_json req) "image" = Return image ∧
  truthy lang = true ∧ truthy image = true.

(** The JSON body lacks the language tag or the image payload: it is
    empty, or it is an object in which one of the two is absent or false
    in Python's sense. *)
Definition missing_fields (req : request) : Prop :=
  truthy (request_json req) = false ∨
  ∃ lang image,
    get (request_json req) "lang" = Return lang ∧
    get (request_json req) "image" = Return image ∧
    (truthy lang = false ∨ truthy image = false).

(** The response is an error body: an object with the single field
    [error], holding a string. *)
Definition is_error_body (body : json_value) : Prop :=
  ∃ msg, body = JObj [("error", JStr msg)].

(** The two [except] clauses around [require_credits], and the two
    around the collaborator call, as functions of the exception caught. *)
Definition gate_failure (e : exn) : response :=
  if is_value_error e then (error_body (str e), 402)
  else (error_body (str e), 500).

Definition collaborator_failure (e : exn) : response :=
  if is_length_finish e then (error_body "Image too big", 422)
  else (error_body (str e), 500).

(** What a view answers once the request has passed validation: the gate
    runs, and only if it admits the request is the description returned. *)
Definition gated_response (described : result response) (user_id : string)
    (db : database) : response * database :=
  match require_credits user_id db with
  | (Return _, db') =>
      (match described with
       | Return r => r
       | Raise e => collaborator_failure e
       end, db')
  | (Raise e, db') => (gate_failure e, db')
  end.

(** A response that rejects the request before the gate is reached. *)
Definition rejected (out : response * database) (db : database) : Prop :=
  out.2 = db ∧
  ∃ msg status, out.1 = (error_body msg, status) ∧ (status = 422 ∨ status = 500).

(** ** Sample inputs *)

Definition sample_key : option string := Some "s3cr3t".

(** A request with both headers and a complete body. *)
Definition sample_request : request :=
  {| x_api_key := Some "s3cr3t";
     x_user_id := Some "u1";
     request_json := JObj [("lang", JStr "en"); ("image", JStr "aGVsbG8=")] |}.

(** The same request without the image payload. *)
Definition incomplete_request : request :=
  {| x_api_key := Some "s3cr3t";
     x_user_id := Some "u1";
     request_json := JObj [("lang", JStr "en")] |}.

(** The same request with a wrong key and no identity. *)
Definition unauthenticated_request : request :=
  {| x_api_key := Some "guess";
     x_user_id := None;
     request_json := JObj [("lang", JStr "en"); ("image", JStr "aGVsbG8=")] |}.

Definition sample_picture : PictureDescription :=
  {| name := "cat";
     description := "A small pet.";
     fun_facts := ["Cats sleep a lot."; "Cats purr."; "Cats chase mice."] |}.

Definition describing_client : openai_client :=
  λ _ _, Return [{| parsed := Some sample_picture; refusal := None |}].

Definition refusing_client : openai_client :=
  λ _ _, Return [{| parsed := None; refusal := Some "I cannot help with that." |}].

Definition failing_client : openai_client :=
  λ _ _, Raise (OtherException "Connection error.").

(** A ledger in which user [u1] has [b] credits. *)
Definition ledger_with (b : Z) : database := Some {["u1" := b]}.

(** ** Definitions used in the statements below *)

(** The outcomes of eleven calls for a user who starts at the default. *)
Definition scenario_B : list (admission * option Z) :=
  [(Ok, Some 9); (Ok, Some 8); (Ok, Some 7); (Ok, Some 6); (Ok, Some 5);
   (Ok, Some 4); (Ok, Some 3); (Ok, Some 2); (Ok, Some 1); (Ok, Some 0);
   (Denied, Some 0)].

(** The error text for a body that lacks a field. *)
Definition missing_fields_message (req : request) : string :=
  if truthy (request_json req) then "Missing required fields"
  else "No data provided".

(** The collaborator answers with a refusal: no parsed result, and a
    refusal text. *)
Definition refuses (client : openai_client) (lang image : json_value) : Prop :=
  ∃ m, process_image_recognition client lang image = Return m ∧
       parsed m = None ∧ truthy_str (refusal m) = true.

(** The collaborator answers with the parsed result [p]. *)
Definition describes (client : openai_client) (lang image : json_value)
    (p : PictureDescription) : Prop :=
  ∃ m, process_image_recognition client lang image = Return m ∧
       parsed m = Some p.

(** The text of the [AttributeError] raised by [parsed.synonyms]. *)
Definition no_synonyms : string :=
  "'PictureDescription' object has no attribute 'synonyms'".

(** The reading of C8 that the code does not meet: a store fault in the
    gate and an unexpected collaborator fault are answered with the generic
    message of the 500 handler. *)
Definition faults_answered_generically : Prop :=
  ∀ client api_key req user_id lang image db,
    authorized api_key req user_id → payload req lang image →
    (∃ e, (require_credits user_id db).1 = Raise e ∧ is_value_error e = false) ∨
    (∃ e, (require_credits user_id db).1 = Return tt ∧
          process_image_recognition client lang image = Raise e ∧
          is_length_finish e = false) →
    (App.analyze_image client api_key req db).1
    = (error_body "Internal server error", 500).

(** The schedule in which the calls named in [order] run one after the
    other, each through its three blocks. *)
Definition serial (order : list nat) : list nat :=
  order ≫= replicate 3.

(** The schedule in which all [n] calls insert, then all read, then all
    write. *)
Definition lockstep (n : nat) : list nat :=
  (seq 0 n ++ seq 0 n ++ seq 0 n)%list.

(** The reading of C1 that the code does not meet: however two calls for
    a user with one credit are scheduled, one is admitted and one denied. *)
Definition admissions_are_serialized : Prop :=
  ∀ schedule user_id (t : table) cs db',
    t !! user_id = Some 1 →
    Interleaving.run schedule (Interleaving.fresh_calls 2 user_id) (Some t)
    = (cs, db') →
    Interleaving.all_finished cs = true →
    Interleaving.outcomes cs ≡ₚ [Ok; Denied] ∧ balance db' user_id = Some 0.

(** A call that has read the balance and is about to write read at least 1. *)
Definition read_at_least_one (c : string * Interleaving.progress) : Prop :=
  match c.2 with
  | Interleaving.BeforeUpdate current_credits => 1 ≤ current_credits
  | _ => True
  end.

(** ** Further definitions used in the statements *)

(** The balance the gate will find: the stored one, or the column default
    that [INSERT OR IGNORE] seeds for a user without an entry. *)
Definition effective_balance (db : database) (user_id : string) : Z :=
  default default_credits (balance db user_id).

(** Whether a decoded JSON document is a [dict]. *)
Definition is_dict (v : json_value) : bool :=
  match v with
  | JObj _ => true
  | _ => false
  end.

(** A call that has read the balance holds a value between [lo] and [hi]. *)
Definition read_within (lo hi : Z) (c : string * Interleaving.progress) : Prop :=
  match c.2 with
  | Interleaving.BeforeUpdate current_credits => lo ≤ current_credits ≤ hi
  | _ => True
  end.

(** The number of calls that returned without raising. *)
Definition ok_count (cs : Interleaving.calls) : nat :=
  count_ok (Interleaving.outcomes cs).

(** A request with the right key and no [X-User-Id]. *)
Definition anonymous_request : request :=
  {| x_api_key := Some "s3cr3t";
     x_user_id := None;
     request_json := JObj [("lang", JStr "en"); ("image", JStr "aGVsbG8=")] |}.

(** A request whose JSON body is a list. *)
Definition list_request : request :=
  {| x_api_key := Some "s3cr3t";
     x_user_id := Some "u1";
     request_json := JArr [JNum 1] |}.

(** A collaborator whose completion is cut at the token limit. *)
Definition overlong_client : openai_client :=
  λ _ _, Raise (LengthFinishReasonError "Could not parse response content as the length limit was reached").

(** A collaborator that neither parses nor refuses. *)
Definition silent_client : openai_client :=
  λ _ _, Return [{| parsed := None; refusal := None |}].

(** The answer to a request without identity. *)
Definition missing_user_id : response :=
  (error_body "Missing required user ID", 422).

(** A call is still running, or has returned without raising. *)
Definition running_or_ok (c : string * Interleaving.progress) : Prop :=
  Interleaving.outcome c = None ∨ Interleaving.outcome c = Some Ok.

(** A call has not been denied: it is still running, has returned without
    raising, or has ended in a store fault. *)
Definition not_denied (c : string * Interleaving.progress) : Prop :=
  Interleaving.outcome c = None ∨ Interleaving.outcome c = Some Ok ∨
  Interleaving.outcome c = Some StoreError.

(** A schedule none of whose blocks finds the database locked. *)
Definition lock_free (schedule : list (nat * bool)) : Prop :=
  Forall (λ s, s.2 = false) schedule.

(** ** Calls that may find the database locked

    Connections that compete for the file can fail to take its lock: the
    block then raises [sqlite3.OperationalError], writes nothing, and the
    exception ends the call of [require_credits]. *)
Module Contention.

Definition database_is_locked : exn := OperationalError "database is locked".

(** The next block of a call; [locked] says whether it fails on the lock. *)
Definition step (locked : bool) (user_id : string) (p : Interleaving.progress)
    (db : database) : Interleaving.progress * database :=
  if locked then
    match p with
    | Interleaving.Finished r => (Interleaving.Finished r, db)
    | _ => (Interleaving.Finished (Raise database_is_locked), db)
    end
  else Interleaving.step user_id p db.

(** A schedule names, block after block, the call that runs next and
    whether that block finds the database locked. *)
Fixpoint run (schedule : list (nat * bool)) (cs : Interleaving.calls)
    (db : database) : Interleaving.calls * database :=
  match schedule with
  | [] => (cs, db)
  | (i, locked) :: rest =>
      match cs !! i with
      | Some (user_id, p) =>
          let '(p', db') := step locked user_id p db in
          run rest (<[i := (user_id, p')]> cs) db'
      | None => run rest cs db
      end
  end.

End Contention.

(** An amount that sqlite3 can bind: a signed 64-bit integer. *)
Definition sqlite_integer (n : Z) : Prop :=
  -9223372036854775808 ≤ n ≤ 9223372036854775807.

(** The headers of a request as it arrives pass both checks of
    [require_api_key_and_user_id] and carry [user_id]. *)
Definition wire_authorized (api_key : option string) (w : wire_request)
    (user_id : string) : Prop :=
  truthy_str (wire_api_key w) = true ∧ wire_api_key w = api_key ∧
  wire_user_id w = Some user_id ∧ truthy_str (Some user_id) = true.

(** The body of a request as it arrives decodes to an object that carries
    both fields. *)
Definition carries_fields (w : wire_request) : Prop :=
  ∃ data lang image, wire_json w = inl data ∧ payload (decoded w data) lang image.

(** A request with the right headers whose body is not valid JSON. *)
Definition malformed_request : wire_request :=
  {| wire_api_key := Some "s3cr3t";
     wire_user_id := Some "u1";
     wire_json := inr BadRequest |}.

(** The request [list_request] as it arrives. *)
Definition list_wire_request : wire_request :=
  {| wire_api_key := Some "s3cr3t";
     wire_user_id := Some "u1";
     wire_json := inl (JArr [JNum 1]) |}.

(** The request [sample_request] as it arrives. *)
Definition sample_wire_request : wire_request :=
  {| wire_api_key := Some "s3cr3t";
     wire_user_id := Some "u1";
     wire_json := inl (JObj [("lang", JStr "en"); ("image", JStr "aGVsbG8=")]) |}.

(** The request [incomplete_request] as it arrives. *)
Definition incomplete_wire_request : wire_request :=
  {| wire_api_key := Some "s3cr3t";
     wire_user_id := Some "u1";
     wire_json := inl (JObj [("lang", JStr "en")]) |}.

(** The reading of C5 that the code does not meet: every request with
    accepted headers whose body does not carry both fields is answered 422. *)
Definition missing_fields_answered_422 : Prop :=
  ∀ client api_key w db user_id,
    wire_authorized api_key w user_id → ¬ carries_fields w →
    wire_status (App.serve_analyze_image client api_key w db).1 = 422.

(** * Properties *)

(** ** The ledger functions *)

Lemma require_credits_no_table user_id :
  require_credits user_id None = (Raise no_such_table, None).
Proof. reflexivity. Qed.

Lemma require_credits_absent user_id (t : table) :
  t !! user_id = None →
  require_credits user_id (Some t) = (Return tt, Some (<[user_id := 9]> t)).
Proof.
  intros Habs. unfold require_credits, bind, insert_or_ignore. rewrite Habs.
  unfold get_user_credits, bind, select_credits, ret.
  rewrite lookup_insert_eq. cbn.
  unfold set_user_credits, upsert_credits. by rewrite insert_insert_eq.
Qed.

Lemma require_credits_positive user_id (t : table) b :
  t !! user_id = Some b → 1 ≤ b →
  require_credits user_id (Some t) = (Return tt, Some (<[user_id := b - 1]> t)).
Proof.
  intros Hb Hpos. unfold require_credits, bind, insert_or_ignore. rewrite Hb.
  unfold get_user_credits, bind, select_credits, ret. rewrite Hb.
  destruct (Z.ltb_spec b 1) as [Hlt | _]; [lia | reflexivity].
Qed.

Lemma require_credits_exhausted user_id (t : table) b :
  t !! user_id = Some b → b < 1 →
  require_credits user_id (Some t) = (Raise no_more_credits, Some t).
Proof.
  intros Hb Hlow. unfold require_credits, bind, insert_or_ignore. rewrite Hb.
  unfold get_user_credits, bind, select_credits, ret. rewrite Hb.
  destruct (Z.ltb_spec b 1) as [_ | Hge]; [reflexivity | lia].
Qed.

(** The three cases above are all there are. *)
Lemma require_credits_cases user_id db :
  (db = None ∧ require_credits user_id db = (Raise no_such_table, None)) ∨
  (∃ t, db = Some t ∧ t !! user_id = None ∧
        require_credits user_id db = (Return tt, Some (<[user_id := 9]> t))) ∨
  (∃ t b, db = Some t ∧ t !! user_id = Some b ∧ 1 ≤ b ∧
        require_credits user_id db = (Return tt, Some (<[user_id := b - 1]> t))) ∨
  (∃ t b, db = Some t ∧ t !! user_id = Some b ∧ b < 1 ∧
        require_credits user_id db = (Raise no_more_credits, db)).
Proof.
  destruct db as [t|]; [| left; split; reflexivity].
  right. destruct (t !! user_id) as [b|] eqn:Hb.
  - destruct (Z.lt_ge_cases b 1) as [Hlow | Hpos].
    + right; right. exists t, b. repeat split; try done.
      by apply (require_credits_exhausted _ _ b).
    + right; left. exists t, b. repeat split; try done.
      by apply require_credits_positive.
  - left. exists t. repeat split; try done. by apply require_credits_absent.
Qed.

Lemma get_user_credits_reads user_id db :
  get_user_credits user_id db =
    (match db with
     | Some t => Return (t !! user_id)
     | None => Raise no_such_table
     end, db).
Proof. by destruct db. Qed.

Lemma or_zero_default (o : option Z) : or_zero o = default 0 o.
Proof.
  destruct o as [c|]; [| reflexivity]. simpl.
  destruct (Z.eqb_spec c 0) as [-> | _]; reflexivity.
Qed.

(** ** The views *)

Lemma decorator_passes api_key f req user_id :
  authorized api_key req user_id →
  App.require_api_key_and_user_id api_key f req = f user_id req.
Proof.
  intros (Hkey & Heq & Hid & Hne). unfold App.require_api_key_and_user_id.
  rewrite Hkey, Hid, Hne. rewrite bool_decide_eq_false_2; [reflexivity |].
  intros Hdiff. by apply Hdiff.
Qed.

Lemma decorator_rejects_key api_key f req :
  x_api_key req = None ∨ x_api_key req ≠ api_key →
  App.require_api_key_and_user_id api_key f req
  = ret (error_body "Invalid API key", 422).
Proof.
  intros Hbad. unfold App.require_api_key_and_user_id.
  destruct Hbad as [-> | Hdiff]; [reflexivity |].
  rewrite (bool_decide_eq_true_2 _ Hdiff). by rewrite orb_true_r.
Qed.

Lemma app_analyze_image_valid client api_key req user_id lang image db :
  authorized api_key req user_id → payload req lang image →
  App.analyze_image client api_key req db
  = gated_response (App.describe client lang image) user_id db.
Proof.
  intros Hauth (Hdata & Hlang & Himage & Htl & Hti).
  unfold App.analyze_image. rewrite (decorator_passes _ _ _ _ Hauth).
  unfold App.analyze_image_view, dispatch, gated_response.
  rewrite Hdata, Hlang, Himage. cbn [negb lift bind].
  rewrite Htl, Hti. cbn [negb orb]. unfold bind, try_except.
  destruct (require_credits user_id db) as [[[]|e] db']; cbn.
  - destruct (App.describe client lang image) as [r|e]; cbn; [done |].
    unfold collaborator_failure. by destruct (is_length_finish e).
  - unfold gate_failure. by destruct (is_value_error e).
Qed.

Lemma standalone_analyze_image_valid client req user_id lang image db :
  identified req user_id → payload req lang image →
  Standalone.analyze_image client req db
  = gated_response (Standalone.describe client lang image) user_id db.
Proof.
  intros (Hid & Hne) (Hdata & Hlang & Himage & Htl & Hti).
  unfold Standalone.analyze_image, Standalone.analyze_image_view, dispatch.
  rewrite Hdata, Hlang, Himage. cbn [negb lift bind].
  rewrite Htl, Hti, Hid, Hne. cbn [negb orb].
  unfold Standalone.gate_and_describe, gated_response, bind, try_except.
  destruct (require_credits user_id db) as [[[]|e] db']; cbn.
  - destruct (Standalone.describe client lang image) as [r|e]; cbn; [done |].
    unfold collaborator_failure. by destruct (is_length_finish e).
  - unfold gate_failure. by destruct (is_value_error e).
Qed.

Lemma sample_request_authorized : authorized sample_key sample_request "u1".
Proof. repeat split. Defined.

Lemma sample_request_payload :
  payload sample_request (JStr "en") (JStr "aGVsbG8=").
Proof. repeat split. Defined.

(** ** The credit gate *)

(** C9: a user without a ledger entry is admitted by a single call of
    [require_credits]: the call returns without raising and leaves the
    balance at 9, the default of 10 less the credit consumed. *)
Theorem fresh_user_passes_gate (user_id : string) (t : table) :
  t !! user_id = None →
  require_credits user_id (Some t) = (Return tt, Some (<[user_id := 9]> t)) ∧
  (credit_gate user_id (Some t)).1 = Ok ∧
  balance (credit_gate user_id (Some t)).2 user_id = Some 9.
Proof.
  intros Habs. unfold credit_gate. rewrite (require_credits_absent _ _ Habs).
  repeat split. cbn. apply lookup_insert_eq.
Qed.

Lemma fresh_user_passes_gate_witness :
  (∅ : table) !! "u1" = None ∧
  require_credits "u1" (Some ∅) = (Return tt, Some (<["u1" := 9]> ∅)) ∧
  (credit_gate "u1" (Some ∅)).1 = Ok ∧
  balance (credit_gate "u1" (Some ∅)).2 "u1" = Some 9.
Proof.
  split; [reflexivity | apply (fresh_user_passes_gate "u1" ∅); reflexivity].
Defined.

Lemma require_credits_non_negative user_id db :
  non_negative db → non_negative (require_credits user_id db).2.
Proof.
  intros Hinv.
  destruct (require_credits_cases user_id db)
    as [[-> ->] | [(t & -> & Habs & ->) | [(t & b & -> & Hb & Hpos & ->)
       | (t & b & -> & Hb & Hlow & ->)]]]; cbn [snd]; try done.
  - intros u c. cbn. rewrite lookup_insert.
    case_decide; [intros [= <-]; lia | apply (Hinv u c)].
  - intros u c. cbn. rewrite lookup_insert.
    case_decide; [intros [= <-]; lia | apply (Hinv u c)].
Qed.

Lemma non_negative_insert user_id (t : table) b :
  non_negative (Some t) → 0 ≤ b → non_negative (Some (<[user_id := b]> t)).
Proof.
  intros Hinv Hb u c. cbn. rewrite lookup_insert.
  case_decide; [intros [= <-]; lia | apply (Hinv u c)].
Qed.

(** One block of a call keeps the balances at or above zero, whatever the
    other calls have done in between. *)
Lemma step_non_negative user_id p db :
  non_negative db → read_at_least_one (user_id, p) →
  non_negative (Interleaving.step user_id p db).2 ∧
  read_at_least_one (user_id, (Interleaving.step user_id p db).1).
Proof.
  intros Hinv Hp. destruct p as [| | c | r]; cbn [Interleaving.step].
  - destruct db as [t|]; cbn; [| done].
    destruct (t !! user_id) eqn:Hb; cbn; [done |].
    split; [| done]. apply non_negative_insert; [done |]. unfold default_credits. lia.
  - rewrite get_user_credits_reads. destruct db as [t|]; cbn; [| done].
    destruct (t !! user_id) as [c|]; cbn; [| done].
    destruct (Z.ltb_spec c 1); cbn; done.
  - destruct db as [t|]; cbn; [| done]. split; [| done].
    apply non_negative_insert; [done |]. unfold read_at_least_one in Hp. cbn in Hp. lia.
  - done.
Qed.

Lemma run_non_negative schedule :
  ∀ (cs : Interleaving.calls) db,
    non_negative db → Forall read_at_least_one cs →
    non_negative (Interleaving.run schedule cs db).2.
Proof.
  induction schedule as [| i rest IH]; intros cs db Hinv Hcs; [done |].
  cbn [Interleaving.run]. destruct (cs !! i) as [[u p]|] eqn:Hi; [| by apply IH].
  pose proof (Forall_lookup_1 _ _ _ _ Hcs Hi) as Hp.
  destruct (step_non_negative u p db Hinv Hp) as [Hinv' Hp'].
  destruct (Interleaving.step u p db) as [p' db']. apply IH; [done |].
  by apply Forall_insert.
Qed.

(** C2: [require_credits] keeps every balance at or above zero; a call
    that finds a balance below 1 raises the denial and leaves the database as
    it found it, the view answers it with status 402, and in particular a
    balance of 0 stays 0.  The floor also holds for calls that interleave:
    whatever the schedule, no block of a call writes a balance below zero. *)
Theorem floor_and_denial client api_key (user_id : string) (db : database) :
  (non_negative db → non_negative (require_credits user_id db).2) ∧
  (∀ b, balance db user_id = Some b → b < 1 →
     require_credits user_id db = (Raise no_more_credits, db) ∧
     credit_gate user_id db = (Denied, db) ∧
     ∀ req lang image,
       authorized api_key req user_id → payload req lang image →
       App.analyze_image client api_key req db
       = ((error_body "No more credits left", 402), db)) ∧
  (balance db user_id = Some 0 →
     credit_gate user_id db = (Denied, db) ∧
     balance (credit_gate user_id db).2 user_id = Some 0) ∧
  (∀ schedule (cs : Interleaving.calls),
     non_negative db → Forall read_at_least_one cs →
     non_negative (Interleaving.run schedule cs db).2).
Proof.
  assert (Hdenied : ∀ b, balance db user_id = Some b → b < 1 →
            require_credits user_id db = (Raise no_more_credits, db)).
  { intros b Hb Hlow. destruct db as [t|]; [| discriminate].
    by apply (require_credits_exhausted _ _ b). }
  split; [apply require_credits_non_negative |]. split.
  - intros b Hb Hlow. pose proof (Hdenied b Hb Hlow) as Hreq.
    split; [done |]. split; [unfold credit_gate; by rewrite Hreq |].
    intros req lang image Hauth Hpay.
    rewrite (app_analyze_image_valid _ _ _ _ _ _ _ Hauth Hpay).
    unfold gated_response. by rewrite Hreq.
  - split; [| intros schedule cs; apply run_non_negative].
    intros Hzero. unfold credit_gate. rewrite (Hdenied 0 Hzero); [| lia]. done.
Qed.

Lemma floor_and_denial_witness :
  non_negative (ledger_with 0) ∧ balance (ledger_with 0) "u1" = Some 0 ∧
  non_negative (require_credits "u1" (ledger_with 0)).2 ∧
  credit_gate "u1" (ledger_with 0) = (Denied, ledger_with 0) ∧
  App.analyze_image describing_client sample_key sample_request (ledger_with 0)
  = ((error_body "No more credits left", 402), ledger_with 0) ∧
  balance (credit_gate "u1" (ledger_with 0)).2 "u1" = Some 0 ∧
  non_negative
    (Interleaving.run (lockstep 2) (Interleaving.fresh_calls 2 "u1")
       (ledger_with 0)).2.
Proof.
  destruct (floor_and_denial describing_client sample_key "u1" (ledger_with 0))
    as (Hinv & Hden & Hzero & Hrace).
  assert (Hnn : non_negative (ledger_with 0)).
  { intros u b. cbn. intros [_ <-]%lookup_singleton_Some. lia. }
  assert (Hb : balance (ledger_with 0) "u1" = Some 0) by reflexivity.
  destruct (Hden 0 Hb ltac:(lia)) as (_ & Hadm & Hview).
  split; [exact Hnn |]. split; [exact Hb |]. split; [exact (Hinv Hnn) |].
  split; [exact Hadm |].
  split; [exact (Hview _ _ _ sample_request_authorized sample_request_payload) |].
  split; [exact (proj2 (Hzero Hb)) |].
  apply (Hrace (lockstep 2) (Interleaving.fresh_calls 2 "u1") Hnn).
  repeat constructor.
Defined.

(** ** Sequences of calls *)

Lemma gate_absent user_id (t : table) :
  t !! user_id = None → credit_gate user_id (Some t) = (Ok, Some (<[user_id := 9]> t)).
Proof. intros Habs. unfold credit_gate. by rewrite (require_credits_absent _ _ Habs). Qed.

Lemma gate_stored_positive user_id (t : table) b :
  1 ≤ b →
  credit_gate user_id (Some (<[user_id := b]> t)) = (Ok, Some (<[user_id := b - 1]> t)).
Proof.
  intros Hpos. unfold credit_gate.
  rewrite (require_credits_positive _ _ b); [| apply lookup_insert_eq | done].
  by rewrite insert_insert_eq.
Qed.

Lemma gate_stored_low user_id (t : table) b :
  b < 1 →
  credit_gate user_id (Some (<[user_id := b]> t)) = (Denied, Some (<[user_id := b]> t)).
Proof.
  intros Hlow. unfold credit_gate.
  rewrite (require_credits_exhausted _ _ b); [done | apply lookup_insert_eq | done].
Qed.

Lemma gate_seq_S n user_id db :
  credit_gate_seq (S n) user_id db
  = (((credit_gate user_id db).1, balance (credit_gate user_id db).2 user_id)
       :: (credit_gate_seq n user_id (credit_gate user_id db).2).1,
     (credit_gate_seq n user_id (credit_gate user_id db).2).2).
Proof.
  cbn [credit_gate_seq]. destruct (credit_gate user_id db) as [a db']. cbn [fst snd].
  by destruct (credit_gate_seq n user_id db').
Qed.

Lemma gate_seq_app n m user_id db :
  credit_gate_seq (n + m) user_id db
  = (((credit_gate_seq n user_id db).1 ++ (credit_gate_seq m user_id (credit_gate_seq n user_id db).2).1)%list,
     (credit_gate_seq m user_id (credit_gate_seq n user_id db).2).2).
Proof.
  revert db. induction n as [| n IH]; intros db.
  - cbn. by destruct (credit_gate_seq m user_id db).
  - change (S n + m)%nat with (S (n + m)). rewrite !gate_seq_S, IH. reflexivity.
Qed.

(** While credits last, every call is admitted and takes one credit. *)
Lemma gate_seq_countdown n user_id (t : table) b :
  Z.of_nat n ≤ b →
  credit_gate_seq n user_id (Some (<[user_id := b]> t))
  = ((λ i, (Ok, Some (b - Z.of_nat i))) <$> seq 1 n,
     Some (<[user_id := b - Z.of_nat n]> t)).
Proof.
  revert b. induction n as [| n IH]; intros b Hle.
  - cbn. by rewrite Z.sub_0_r.
  - rewrite gate_seq_S, gate_stored_positive by lia. cbn [fst snd].
    rewrite IH by lia. cbn [fst snd balance seq fmap list_fmap].
    rewrite lookup_insert_eq. f_equal.
    + f_equal. rewrite <- (fmap_S_seq 1 n), <- list_fmap_compose.
      apply list_fmap_ext. intros _ i _. cbn. do 2 f_equal. lia.
    + do 2 f_equal. lia.
Qed.

(** Once the balance is below 1, every call is denied and changes nothing. *)
Lemma gate_seq_denied n user_id (t : table) b :
  b < 1 →
  credit_gate_seq n user_id (Some (<[user_id := b]> t))
  = (replicate n (Denied, Some b), Some (<[user_id := b]> t)).
Proof.
  intros Hlow. induction n as [| n IH]; [reflexivity |].
  rewrite gate_seq_S, gate_stored_low by done. cbn [fst snd].
  rewrite IH. cbn [fst snd balance replicate]. by rewrite lookup_insert_eq.
Qed.

(** ** What [POST /analyze/image] does, case by case *)

Lemma app_analyze_image_cases client api_key req db :
  (∃ user_id lang image,
     authorized api_key req user_id ∧ payload req lang image ∧
     App.analyze_image client api_key req db
     = gated_response (App.describe client lang image) user_id db) ∨
  ((∀ user_id lang image,
      ¬ (authorized api_key req user_id ∧ payload req lang image)) ∧
   rejected (App.analyze_image client api_key req db) db).
Proof.
  destruct (negb (truthy_str (x_api_key req))
            || bool_decide (x_api_key req ≠ api_key)) eqn:Hkey.
  { right. split.
    - intros u l i [(Ht & Heq & _) _]. rewrite Ht in Hkey. cbn in Hkey.
      apply bool_decide_eq_true_1 in Hkey. by apply Hkey.
    - unfold App.analyze_image, App.require_api_key_and_user_id.
      rewrite Hkey. split; [done |]. exists "Invalid API key", 422. auto. }
  apply orb_false_elim in Hkey as [Hkey%negb_false_iff Heq%bool_decide_eq_false_1].
  assert (Hsame : x_api_key req = api_key).
  { destruct (decide (x_api_key req = api_key)); [done | by destruct Heq]. }
  destruct (x_user_id req) as [u|] eqn:Hid; cycle 1.
  { right. split.
    - intros u l i [(_ & _ & Hu & _) _]. congruence.
    - unfold App.analyze_image, App.require_api_key_and_user_id.
      rewrite Hkey, Hid, (bool_decide_eq_false_2 _ Heq). cbn.
      split; [done |]. exists "Missing required user ID", 422. auto. }
  destruct (truthy_str (Some u)) eqn:Hne; cycle 1.
  { right. split.
    - intros u' l i [(_ & _ & Hu & Hne') _]. congruence.
    - unfold App.analyze_image, App.require_api_key_and_user_id.
      rewrite Hkey, Hid, Hne, (bool_decide_eq_false_2 _ Heq). cbn.
      split; [done |]. exists "Missing required user ID", 422. auto. }
  assert (Hauth : authorized api_key req u) by done.
  assert (Hview : App.analyze_image client api_key req db
                  = dispatch (App.analyze_image_view client u req) db).
  { unfold App.analyze_image. by rewrite (decorator_passes _ _ _ _ Hauth). }
  destruct (truthy (request_json req)) eqn:Hdata; cycle 1.
  { right. split.
    - intros u' l i [_ (Hd & _)]. congruence.
    - rewrite Hview. unfold App.analyze_image_view, dispatch. rewrite Hdata. cbn.
      split; [done |]. exists "No data provided", 422. auto. }
  destruct (get (request_json req) "lang") as [lang | e] eqn:Hlang; cycle 1.
  { right. split.
    - intros u' l i [_ (_ & Hl & _)]. congruence.
    - rewrite Hview. unfold App.analyze_image_view, dispatch.
      rewrite Hdata, Hlang. cbn.
      split; [done |]. exists "Internal server error", 500. auto. }
  destruct (get (request_json req) "image") as [image | e] eqn:Himage; cycle 1.
  { right. split.
    - intros u' l i [_ (_ & _ & Hi & _)]. congruence.
    - rewrite Hview. unfold App.analyze_image_view, dispatch.
      rewrite Hdata, Hlang, Himage. cbn.
      split; [done |]. exists "Internal server error", 500. auto. }
  destruct (negb (truthy lang) || negb (truthy image)) eqn:Hfields.
  { right. split.
    - intros u' l i [_ (_ & Hl & Hi & Htl & Hti)].
      assert (l = lang) as -> by congruence.
      assert (i = image) as -> by congruence.
      rewrite Htl, Hti in Hfields. discriminate.
    - rewrite Hview. unfold App.analyze_image_view, dispatch.
      rewrite Hdata, Hlang, Himage. cbn [negb lift bind]. rewrite Hfields. cbn.
      split; [done |]. exists "Missing required fields", 422. auto. }
  apply orb_false_elim in Hfields as [Htl%negb_false_iff Hti%negb_false_iff].
  left. exists u, lang, image.
  assert (Hpay : payload req lang image) by done.
  split; [done |]. split; [done |]. by apply app_analyze_image_valid.
Qed.

Lemma standalone_analyze_image_cases client req db :
  (∃ user_id lang image,
     identified req user_id ∧ payload req lang image ∧
     Standalone.analyze_image client req db
     = gated_response (Standalone.describe client lang image) user_id db) ∨
  ((∀ user_id lang image,
      ¬ (identified req user_id ∧ payload req lang image)) ∧
   rejected (Standalone.analyze_image client req db) db).
Proof.
  unfold Standalone.analyze_image.
  destruct (truthy (request_json req)) eqn:Hdata; cycle 1.
  { right. split.
    - intros u' l i [_ (Hd & _)]. congruence.
    - unfold Standalone.analyze_image_view, dispatch. rewrite Hdata. cbn.
      split; [done |]. exists "No data provided", 422. auto. }
  destruct (get (request_json req) "lang") as [lang | e] eqn:Hlang; cycle 1.
  { right. split.
    - intros u' l i [_ (_ & Hl & _)]. congruence.
    - unfold Standalone.analyze_image_view, dispatch. rewrite Hdata, Hlang. cbn.
      split; [done |]. exists "Internal server error", 500. auto. }
  destruct (get (request_json req) "image") as [image | e] eqn:Himage; cycle 1.
  { right. split.
    - intros u' l i [_ (_ & _ & Hi & _)]. congruence.
    - unfold Standalone.analyze_image_view, dispatch.
      rewrite Hdata, Hlang, Himage. cbn.
      split; [done |]. exists "Internal server error", 500. auto. }
  destruct (negb (truthy lang) || negb (truthy image)) eqn:Hfields.
  { right. split.
    - intros u' l i [_ (_ & Hl & Hi & Htl & Hti)].
      assert (l = lang) as -> by congruence.
      assert (i = image) as -> by congruence.
      rewrite Htl, Hti in Hfields. discriminate.
    - unfold Standalone.analyze_image_view, dispatch.
      rewrite Hdata, Hlang, Himage. cbn [negb lift bind]. rewrite Hfields. cbn.
      split; [done |]. exists "Missing required fields", 422. auto. }
  pose proof Hfields as Hboth.
  apply orb_false_elim in Hboth as [Htl%negb_false_iff Hti%negb_false_iff].
  assert (Hpay : payload req lang image) by done.
  destruct (x_user_id req) as [u|] eqn:Hid; cycle 1.
  { right. split.
    - intros u l i [(Hu & _) _]. congruence.
    - unfold Standalone.analyze_image_view, dispatch.
      rewrite Hdata, Hlang, Himage. cbn [negb lift bind]. rewrite Hfields, Hid.
      split; [done |]. exists "Missing required user ID", 422. auto. }
  destruct (truthy_str (Some u)) eqn:Hne; cycle 1.
  { right. split.
    - intros u' l i [(Hu & Hne') _]. congruence.
    - unfold Standalone.analyze_image_view, dispatch.
      rewrite Hdata, Hlang, Himage. cbn [negb lift bind].
      rewrite Hfields, Hid, Hne.
      split; [done |]. exists "Missing required user ID", 422. auto. }
  left. exists u, lang, image.
  assert (Hident : identified req u) by done.
  split; [done |]. split; [done |].
  by apply (standalone_analyze_image_valid client req u lang image db).
Qed.

(** The gate is the only part of a view that writes. *)
Lemma gated_response_database described user_id db :
  (gated_response described user_id db).2 = (require_credits user_id db).2.
Proof.
  unfold gated_response. by destruct (require_credits user_id db) as [[[]|e] db'].
Qed.

Lemma credits_left_view_frame user_id req db :
  (dispatch (App.credits_left_view user_id req) db).2 = db.
Proof.
  unfold dispatch, App.credits_left_view, bind.
  rewrite get_user_credits_reads. by destruct db.
Qed.

Lemma app_credits_left_frame api_key req db :
  (App.credits_left api_key req db).2 = db.
Proof.
  unfold App.credits_left, App.require_api_key_and_user_id.
  destruct (_ || _); [done |].
  destruct (x_user_id req) as [u|]; [| done].
  destruct (negb _); [done |]. apply credits_left_view_frame.
Qed.

Lemma standalone_credits_left_frame req db :
  (Standalone.credits_left req db).2 = db.
Proof.
  unfold Standalone.credits_left, Standalone.credits_left_view.
  destruct (x_user_id req) as [u|]; [| done].
  destruct (negb _); [done |].
  unfold dispatch, bind. rewrite get_user_credits_reads. by destruct db.
Qed.

Lemma require_credits_other user_id other db :
  other ≠ user_id →
  balance (require_credits user_id db).2 other = balance db other.
Proof.
  intros Hne.
  destruct (require_credits_cases user_id db)
    as [[-> ->] | [(t & -> & Habs & ->) | [(t & b & -> & Hb & Hpos & ->)
       | (t & b & -> & Hb & Hlow & ->)]]]; cbn; try done.
  - by rewrite lookup_insert_ne.
  - by rewrite lookup_insert_ne.
Qed.

Lemma app_analyze_image_writes client api_key req db :
  (App.analyze_image client api_key req db).2 = db ∨
  ∃ user_id, x_user_id req = Some user_id ∧
    (App.analyze_image client api_key req db).2 = (require_credits user_id db).2.
Proof.
  destruct (app_analyze_image_cases client api_key req db)
    as [(u & lang & image & Hauth & _ & ->) | [_ [Hdb _]]]; [| by left].
  right. exists u. split; [apply Hauth | apply gated_response_database].
Qed.

Lemma standalone_analyze_image_writes client req db :
  (Standalone.analyze_image client req db).2 = db ∨
  ∃ user_id, x_user_id req = Some user_id ∧
    (Standalone.analyze_image client req db).2 = (require_credits user_id db).2.
Proof.
  destruct (standalone_analyze_image_cases client req db)
    as [(u & lang & image & Hid & _ & ->) | [_ [Hdb _]]]; [| by left].
  right. exists u. split; [apply Hid | apply gated_response_database].
Qed.

Lemma eleven_calls user_id (t : table) :
  t !! user_id = None →
  credit_gate_seq 11 user_id (Some t) = (scenario_B, Some (<[user_id := 0]> t)).
Proof.
  intros Habs. change 11%nat with (1 + (9 + 1))%nat.
  rewrite gate_seq_app. rewrite (gate_seq_S 0), (gate_absent _ _ Habs).
  cbn [credit_gate_seq fst snd balance]. rewrite lookup_insert_eq.
  rewrite gate_seq_app, gate_seq_countdown by (cbn; lia). cbn [fst snd].
  change (9 - Z.of_nat 9) with 0.
  rewrite gate_seq_denied by lia. reflexivity.
Qed.

(** C3: a call of [require_credits] that finds a stored balance [b >= 1]
    returns without raising and leaves exactly [b - 1]; it leaves the other
    users' balances alone; reading the balance, creating the table and the
    two routes change a balance only through that call, [set_user_credits]
    being the explicit top-up, which writes the amount it is given when that
    amount is a SQLite INTEGER; and a new user's eleven calls in sequence give
    balances 9, 8, ..., 0 and then a denial. *)
Theorem monotonic_decrement client api_key (user_id : string) (db : database) :
  (∀ b, balance db user_id = Some b → 1 ≤ b →
     (require_credits user_id db).1 = Return tt ∧
     balance (require_credits user_id db).2 user_id = Some (b - 1)) ∧
  (∀ b db', balance db user_id = Some b →
     require_credits user_id db = (Return tt, db') →
     balance db' user_id = Some (b - 1)) ∧
  (∀ other, other ≠ user_id →
     balance (require_credits user_id db).2 other = balance db other) ∧
  (get_user_credits user_id db).2 = db ∧
  (∀ other, balance (init_db db).2 other = balance db other) ∧
  (∀ req, (App.credits_left api_key req db).2 = db ∧
          (Standalone.credits_left req db).2 = db) ∧
  (∀ req, ((App.analyze_image client api_key req db).2 = db ∨
           ∃ u, x_user_id req = Some u ∧
             (App.analyze_image client api_key req db).2
             = (require_credits u db).2) ∧
          ((Standalone.analyze_image client req db).2 = db ∨
           ∃ u, x_user_id req = Some u ∧
             (Standalone.analyze_image client req db).2
             = (require_credits u db).2)) ∧
  (∀ t amount, db = Some t → sqlite_integer amount →
     set_user_credits user_id amount db = (Return tt, Some (<[user_id := amount]> t))) ∧
  (∀ t, db = Some t → t !! user_id = None →
     credit_gate_seq 11 user_id db = (scenario_B, Some (<[user_id := 0]> t))).
Proof.
  split.
  { intros b Hb Hpos. destruct db as [t|]; [| discriminate].
    rewrite (require_credits_positive _ _ b Hb Hpos). cbn.
    split; [done | apply lookup_insert_eq]. }
  split.
  { intros b db' Hb Hreq. destruct db as [t|]; [| discriminate].
    destruct (Z.lt_ge_cases b 1) as [Hlow | Hpos].
    - rewrite (require_credits_exhausted _ _ b Hb Hlow) in Hreq. discriminate.
    - rewrite (require_credits_positive _ _ b Hb Hpos) in Hreq.
      injection Hreq as <-. apply lookup_insert_eq. }
  split; [intros other; apply require_credits_other |].
  split; [by rewrite get_user_credits_reads |].
  split; [intros other; by destruct db |].
  split.
  { intros req. split;
      [apply app_credits_left_frame | apply standalone_credits_left_frame]. }
  split.
  { intros req. split;
      [apply app_analyze_image_writes | apply standalone_analyze_image_writes]. }
  split; [by intros t amount -> _ |].
  intros t -> Habs. by apply eleven_calls.
Qed.

Lemma monotonic_decrement_witness :
  balance (ledger_with 3) "u1" = Some 3 ∧ 1 ≤ 3 ∧
  (require_credits "u1" (ledger_with 3)).1 = Return tt ∧
  balance (require_credits "u1" (ledger_with 3)).2 "u1" = Some (3 - 1) ∧
  balance (require_credits "u1" (ledger_with 3)).2 "u2" = balance (ledger_with 3) "u2" ∧
  sqlite_integer 40 ∧
  set_user_credits "u1" 40 (ledger_with 3)
  = (Return tt, Some (<["u1" := 40]> {["u1" := 3]})) ∧
  (∅ : table) !! "u1" = None ∧
  credit_gate_seq 11 "u1" (Some ∅) = (scenario_B, Some (<["u1" := 0]> ∅)).
Proof.
  destruct (monotonic_decrement describing_client sample_key "u1" (ledger_with 3))
    as (Hdec & _ & Hother & _ & _ & _ & _ & Htopup & _).
  assert (Hint : sqlite_integer 40) by (unfold sqlite_integer; lia).
  destruct (monotonic_decrement describing_client sample_key "u1" (Some ∅))
    as (_ & _ & _ & _ & _ & _ & _ & _ & Hscenario).
  assert (Hb : balance (ledger_with 3) "u1" = Some 3) by reflexivity.
  assert (Hpos : 1 ≤ 3) by lia.
  assert (Hne : "u2" ≠ "u1") by discriminate.
  split; [exact Hb |]. split; [exact Hpos |].
  split; [exact (proj1 (Hdec 3 Hb Hpos)) |].
  split; [exact (proj2 (Hdec 3 Hb Hpos)) |].
  split; [exact (Hother "u2" Hne) |].
  split; [exact Hint |]. split; [exact (Htopup _ 40 eq_refl Hint) |].
  split; [reflexivity | exact (Hscenario ∅ eq_refl eq_refl)].
Defined.

(** ** The balance query *)

Lemma app_credits_left_valid api_key req user_id db :
  authorized api_key req user_id →
  App.credits_left api_key req db
  = dispatch (App.credits_left_view user_id req) db.
Proof.
  intros Hauth. unfold App.credits_left. by rewrite (decorator_passes _ _ _ _ Hauth).
Qed.

(** C6: [get_user_credits] returns the stored balance, [None] when there
    is no entry; [GET /credits] with a valid identity answers with that
    balance, and with 0 when there is no entry; neither creates or changes an
    entry, so asking again gives the same answer. *)
Theorem balance_query api_key (user_id : string) (req : request)
    (t : table) (db : database) :
  get_user_credits user_id (Some t) = (Return (t !! user_id), Some t) ∧
  (authorized api_key req user_id →
     App.credits_left api_key req (Some t)
     = ((jsonify [("credits", JNum (default 0 (t !! user_id)))], 200), Some t)) ∧
  (identified req user_id →
     Standalone.credits_left req (Some t)
     = ((jsonify [("credits", JNum (default 0 (t !! user_id)))], 200), Some t)) ∧
  (t !! user_id = None → authorized api_key req user_id →
     App.credits_left api_key req (Some t)
     = ((jsonify [("credits", JNum 0)], 200), Some t)) ∧
  ((get_user_credits user_id db).2 = db ∧
   (App.credits_left api_key req db).2 = db ∧
   (Standalone.credits_left req db).2 = db) ∧
  (get_user_credits user_id (get_user_credits user_id db).2
   = get_user_credits user_id db ∧
   App.credits_left api_key req (App.credits_left api_key req db).2
   = App.credits_left api_key req db ∧
   Standalone.credits_left req (Standalone.credits_left req db).2
   = Standalone.credits_left req db).
Proof.
  assert (Happ : authorized api_key req user_id →
     App.credits_left api_key req (Some t)
     = ((jsonify [("credits", JNum (default 0 (t !! user_id)))], 200), Some t)).
  { intros Hauth. rewrite (app_credits_left_valid _ _ _ _ Hauth).
    unfold dispatch, App.credits_left_view, bind.
    rewrite get_user_credits_reads. cbn. by rewrite or_zero_default. }
  split; [reflexivity |]. split; [exact Happ |]. split.
  { intros (Hid & Hne).
    unfold Standalone.credits_left, Standalone.credits_left_view, dispatch, bind.
    rewrite Hid, Hne. cbn [negb]. rewrite get_user_credits_reads. cbn.
    by rewrite or_zero_default. }
  split; [intros Habs Hauth; rewrite (Happ Hauth), Habs; reflexivity |].
  split.
  { split; [by rewrite get_user_credits_reads |].
    split; [apply app_credits_left_frame | apply standalone_credits_left_frame]. }
  split; [by destruct db |].
  split; [by rewrite app_credits_left_frame
         | by rewrite standalone_credits_left_frame].
Qed.

Lemma balance_query_witness :
  authorized sample_key sample_request "u1" ∧
  App.credits_left sample_key sample_request (ledger_with 7)
  = ((jsonify [("credits", JNum 7)], 200), ledger_with 7) ∧
  identified sample_request "u1" ∧
  Standalone.credits_left sample_request (ledger_with 7)
  = ((jsonify [("credits", JNum 7)], 200), ledger_with 7) ∧
  (∅ : table) !! "u1" = None ∧
  App.credits_left sample_key sample_request (Some ∅)
  = ((jsonify [("credits", JNum 0)], 200), Some ∅).
Proof.
  destruct (balance_query sample_key "u1" sample_request {["u1" := 7]} None)
    as (_ & Happ & Hplain & _).
  destruct (balance_query sample_key "u1" sample_request ∅ None)
    as (_ & _ & _ & Hzero & _).
  assert (Hid : identified sample_request "u1") by (split; reflexivity).
  split; [exact sample_request_authorized |].
  split; [exact (Happ sample_request_authorized) |].
  split; [exact Hid |]. split; [exact (Hplain Hid) |].
  split; [reflexivity | exact (Hzero eq_refl sample_request_authorized)].
Defined.

(** C10: in the variant with an API key, [GET /credits] answers a request
    whose [X-Api-Key] header is missing or differs from the configured key
    with 422 and [Invalid API key], whether or not [X-User-Id] is there, and
    whatever the database holds, which it leaves as it is. *)
Theorem invalid_api_key api_key (req : request) (db : database) :
  x_api_key req = None ∨ x_api_key req ≠ api_key →
  App.credits_left api_key req db = ((error_body "Invalid API key", 422), db) ∧
  ∀ db', (App.credits_left api_key req db').1 = (App.credits_left api_key req db).1.
Proof.
  intros Hbad.
  assert (Hany : ∀ d, App.credits_left api_key req d
                      = ((error_body "Invalid API key", 422), d)).
  { intros d. unfold App.credits_left.
    by rewrite (decorator_rejects_key _ _ _ Hbad). }
  split; [apply Hany |]. intros db'. by rewrite !Hany.
Qed.

Lemma invalid_api_key_witness :
  (x_api_key unauthenticated_request = None ∨
   x_api_key unauthenticated_request ≠ sample_key) ∧
  x_user_id unauthenticated_request = None ∧
  App.credits_left sample_key unauthenticated_request (ledger_with 7)
  = ((error_body "Invalid API key", 422), ledger_with 7).
Proof.
  assert (Hbad : x_api_key unauthenticated_request = None ∨
                 x_api_key unauthenticated_request ≠ sample_key)
    by (right; discriminate).
  split; [exact Hbad |]. split; [reflexivity |].
  exact (proj1 (invalid_api_key sample_key unauthenticated_request
                  (ledger_with 7) Hbad)).
Defined.

(** ** Validation comes before the gate *)

Lemma missing_fields_no_payload req lang image :
  missing_fields req → ¬ payload req lang image.
Proof.
  intros [Hd | (l & i & Hl & Hi & Hf)] (Hd' & Hl' & Hi' & Htl & Hti).
  - congruence.
  - assert (l = lang) as -> by congruence.
    assert (i = image) as -> by congruence.
    destruct Hf; congruence.
Qed.

Lemma app_view_missing_fields client user_id req db :
  missing_fields req →
  dispatch (App.analyze_image_view client user_id req) db
  = ((error_body (missing_fields_message req), 422), db).
Proof.
  unfold App.analyze_image_view, dispatch, missing_fields_message.
  intros [Hd | (l & i & Hl & Hi & Hf)].
  - by rewrite Hd.
  - destruct (truthy (request_json req)); [| done].
    rewrite Hl, Hi. cbn [negb lift bind].
    by destruct Hf as [-> | ->]; rewrite ?orb_true_r.
Qed.

Lemma standalone_missing_fields client req db :
  missing_fields req →
  Standalone.analyze_image client req db
  = ((error_body (missing_fields_message req), 422), db).
Proof.
  unfold Standalone.analyze_image, Standalone.analyze_image_view, dispatch,
    missing_fields_message.
  intros [Hd | (l & i & Hl & Hi & Hf)].
  - by rewrite Hd.
  - destruct (truthy (request_json req)); [| done].
    rewrite Hl, Hi. cbn [negb lift bind].
    by destruct Hf as [-> | ->]; rewrite ?orb_true_r.
Qed.

Lemma app_missing_fields client api_key req db :
  missing_fields req →
  (App.analyze_image client api_key req db).2 = db ∧
  (App.analyze_image client api_key req db).1.2 = 422.
Proof.
  intros Hmiss. unfold App.analyze_image, App.require_api_key_and_user_id.
  destruct (_ || _); [done |].
  destruct (x_user_id req) as [u|]; [| done].
  destruct (negb _); [done |].
  by rewrite (app_view_missing_fields _ _ _ _ Hmiss).
Qed.

(** A request to [POST /analyze/image] whose decoded body lacks the language
    tag or the image payload is answered with status 422 and leaves the
    database as it was, whatever it holds: once the headers are accepted
    the answer is the missing-fields error ([No data provided] for an empty
    body).  More generally the database is untouched whenever the body does
    not carry both fields. *)
Lemma decoded_body_validation client api_key (req : request) (db : database) :
  ((∀ lang image, ¬ payload req lang image) →
     (App.analyze_image client api_key req db).2 = db ∧
     (Standalone.analyze_image client req db).2 = db) ∧
  (missing_fields req →
     ((App.analyze_image client api_key req db).2 = db ∧
      (App.analyze_image client api_key req db).1.2 = 422 ∧
      ∀ user_id, authorized api_key req user_id →
        App.analyze_image client api_key req db
        = ((error_body (missing_fields_message req), 422), db)) ∧
     Standalone.analyze_image client req db
     = ((error_body (missing_fields_message req), 422), db)).
Proof.
  split.
  - intros Hnone. split.
    + destruct (app_analyze_image_cases client api_key req db)
        as [(u & l & i & _ & Hpay & _) | [_ [Hdb _]]]; [| done].
      by destruct (Hnone l i).
    + destruct (standalone_analyze_image_cases client req db)
        as [(u & l & i & _ & Hpay & _) | [_ [Hdb _]]]; [| done].
      by destruct (Hnone l i).
  - intros Hmiss. split; [| by apply standalone_missing_fields].
    destruct (app_missing_fields client api_key req db Hmiss) as [Hdb Hst].
    split; [done |]. split; [done |]. intros u Hauth.
    unfold App.analyze_image. rewrite (decorator_passes _ _ _ _ Hauth).
    by apply app_view_missing_fields.
Qed.

Lemma incomplete_request_missing : missing_fields incomplete_request.
Proof.
  right. exists (JStr "en"), JNull. split; [reflexivity |].
  split; [reflexivity | by right].
Defined.

(** ** After admission: what the collaborator's answer becomes *)

Lemma standalone_describe_eq client lang image :
  Standalone.describe client lang image
  = (response_content <- process_image_recognition client lang image ;;
     match parsed response_content with
     | Some p =>
         Return (jsonify [("name", JStr (name p));
                          ("description", JStr (description p));
                          ("funFacts", JArr (JStr <$> fun_facts p))], 200)
     | None =>
         if truthy_str (refusal response_content)
         then Return (error_body "Image is not processable", 422)
         else Return (error_body "Image cannot be identified", 422)
     end)%result.
Proof.
  unfold Standalone.describe, process_image_recognition, result_bind.
  destruct (client lang image) as [choices | e]; [| done].
  destruct (first_choice choices) as [m | e]; [| done].
  by destruct (parsed m).
Qed.

Lemma app_describe_eq client lang image :
  App.describe client lang image
  = (response_content <- process_image_recognition client lang image ;;
     match parsed response_content with
     | Some p => Raise (no_attribute "PictureDescription" "synonyms")
     | None =>
         if truthy_str (refusal response_content)
         then Return (error_body "Image is not processable", 422)
         else Return (error_body "Image cannot be identified", 422)
     end)%result.
Proof.
  unfold App.describe, result_bind.
  destruct (process_image_recognition client lang image) as [m | e]; [| done].
  by destruct (parsed m).
Qed.

Lemma describe_refusal client lang image :
  refuses client lang image →
  App.describe client lang image
  = Return (error_body "Image is not processable", 422) ∧
  Standalone.describe client lang image
  = Return (error_body "Image is not processable", 422).
Proof.
  intros (m & Hm & Hp & Hr).
  rewrite app_describe_eq, standalone_describe_eq, Hm. cbn.
  by rewrite Hp, Hr.
Qed.

Lemma authorized_identified api_key req user_id :
  authorized api_key req user_id → identified req user_id.
Proof. by intros (_ & _ & Hid & Hne). Qed.

(** C7: a valid request admitted with a stored balance [b >= 1] to which
    the collaborator answers with a refusal gets 422 and
    [Image is not processable], and the balance is [b - 1] afterwards: the
    credit stays consumed. *)
Theorem refusal_keeps_the_debit client api_key (req : request)
    (user_id : string) (lang image : json_value) (t : table) (b : Z) :
  authorized api_key req user_id → payload req lang image →
  t !! user_id = Some b → 1 ≤ b →
  refuses client lang image →
  App.analyze_image client api_key req (Some t)
  = ((error_body "Image is not processable", 422),
     Some (<[user_id := b - 1]> t)) ∧
  Standalone.analyze_image client req (Some t)
  = ((error_body "Image is not processable", 422),
     Some (<[user_id := b - 1]> t)) ∧
  balance (App.analyze_image client api_key req (Some t)).2 user_id
  = Some (b - 1).
Proof.
  intros Hauth Hpay Hb Hpos Hrefuses.
  destruct (describe_refusal _ _ _ Hrefuses) as [Happ Hplain].
  assert (Hout : App.analyze_image client api_key req (Some t)
    = ((error_body "Image is not processable", 422),
       Some (<[user_id := b - 1]> t))).
  { rewrite (app_analyze_image_valid _ _ _ _ _ _ _ Hauth Hpay).
    unfold gated_response.
    by rewrite (require_credits_positive _ _ b Hb Hpos), Happ. }
  split; [exact Hout |]. split.
  - rewrite (standalone_analyze_image_valid _ _ _ _ _ _
               (authorized_identified _ _ _ Hauth) Hpay).
    unfold gated_response.
    by rewrite (require_credits_positive _ _ b Hb Hpos), Hplain.
  - rewrite Hout. apply lookup_insert_eq.
Qed.

Lemma refusing_client_refuses lang image : refuses refusing_client lang image.
Proof.
  exists {| parsed := None; refusal := Some "I cannot help with that." |}.
  repeat split.
Defined.

Lemma refusal_keeps_the_debit_witness :
  authorized sample_key sample_request "u1" ∧
  payload sample_request (JStr "en") (JStr "aGVsbG8=") ∧
  ({["u1" := 5]} : table) !! "u1" = Some 5 ∧ 1 ≤ 5 ∧
  refuses refusing_client (JStr "en") (JStr "aGVsbG8=") ∧
  App.analyze_image refusing_client sample_key sample_request (ledger_with 5)
  = ((error_body "Image is not processable", 422),
     Some (<["u1" := 5 - 1]> {["u1" := 5]})) ∧
  balance (App.analyze_image refusing_client sample_key sample_request
             (ledger_with 5)).2 "u1" = Some (5 - 1).
Proof.
  assert (Hb : ({["u1" := 5]} : table) !! "u1" = Some 5) by reflexivity.
  assert (Hpos : 1 ≤ 5) by lia.
  destruct (refusal_keeps_the_debit refusing_client sample_key sample_request
              "u1" (JStr "en") (JStr "aGVsbG8=") {["u1" := 5]} 5
              sample_request_authorized sample_request_payload Hb Hpos
              (refusing_client_refuses _ _)) as (Happ & _ & Hbal).
  split; [exact sample_request_authorized |].
  split; [exact sample_request_payload |].
  split; [exact Hb |]. split; [exact Hpos |].
  split; [exact (refusing_client_refuses _ _) |].
  split; [exact Happ | exact Hbal].
Defined.

(** In [src/server.py] a parsed result becomes the response body. *)
Lemma standalone_parsed_result client req user_id lang image db p :
  identified req user_id → payload req lang image →
  (require_credits user_id db).1 = Return tt →
  describes client lang image p →
  (Standalone.analyze_image client req db).1
  = (jsonify [("name", JStr (name p)); ("description", JStr (description p));
              ("funFacts", JArr (JStr <$> fun_facts p))], 200).
Proof.
  intros Hid Hpay Hadm (m & Hm & Hp).
  rewrite (standalone_analyze_image_valid _ _ _ _ _ _ Hid Hpay).
  unfold gated_response. rewrite standalone_describe_eq, Hm. cbn.
  rewrite Hp. destruct (require_credits user_id db) as [[[]|e] db']; [done |].
  discriminate.
Qed.

(** In [src/app/server.py] a parsed result never reaches the client: reading
    [synonyms] raises, and the [except] clause answers 500. *)
Lemma app_parsed_result client api_key req user_id lang image db p :
  authorized api_key req user_id → payload req lang image →
  (require_credits user_id db).1 = Return tt →
  describes client lang image p →
  (App.analyze_image client api_key req db).1 = (error_body no_synonyms, 500).
Proof.
  intros Hauth Hpay Hadm (m & Hm & Hp).
  rewrite (app_analyze_image_valid _ _ _ _ _ _ _ Hauth Hpay).
  unfold gated_response. rewrite app_describe_eq, Hm. cbn.
  rewrite Hp. destruct (require_credits user_id db) as [[[]|e] db']; [done |].
  discriminate.
Qed.

(** C4: on a valid, admitted request for which the collaborator returns a
    parsed result, [src/server.py] answers with the object of [name],
    [description] and [funFacts], while [src/app/server.py] answers 500 with
    the text of an [AttributeError]; the credit is consumed in both. *)
Theorem parsed_result_in_both_variants :
  describes describing_client (JStr "en") (JStr "aGVsbG8=") sample_picture ∧
  Standalone.analyze_image describing_client sample_request (ledger_with 5)
  = ((jsonify [("name", JStr "cat"); ("description", JStr "A small pet.");
               ("funFacts", JArr [JStr "Cats sleep a lot."; JStr "Cats purr.";
                                  JStr "Cats chase mice."])], 200),
     ledger_with 4) ∧
  App.analyze_image describing_client sample_key sample_request (ledger_with 5)
  = ((error_body "'PictureDescription' object has no attribute 'synonyms'", 500),
     ledger_with 4).
Proof.
  split.
  - exists {| parsed := Some sample_picture; refusal := None |}. by split.
  - split; vm_compute; reflexivity.
Qed.

(** ** Error bodies *)

Lemma error_body_is_error msg : is_error_body (error_body msg).
Proof. by exists msg. Qed.

Lemma rejected_is_error out db :
  rejected out db → is_error_body out.1.1.
Proof. intros [_ (msg & st & -> & _)]. apply error_body_is_error. Qed.

Lemma gate_failure_is_error e : is_error_body (gate_failure e).1.
Proof. unfold gate_failure. destruct (is_value_error e); apply error_body_is_error. Qed.

Lemma collaborator_failure_is_error e : is_error_body (collaborator_failure e).1.
Proof.
  unfold collaborator_failure.
  destruct (is_length_finish e); apply error_body_is_error.
Qed.

Lemma app_describe_returns client lang image r :
  App.describe client lang image = Return r → is_error_body r.1.
Proof.
  rewrite app_describe_eq. unfold result_bind.
  destruct (process_image_recognition client lang image) as [m | e]; [| done].
  destruct (parsed m); [done |].
  destruct (truthy_str (refusal m)); intros [= <-]; apply error_body_is_error.
Qed.

Lemma standalone_describe_returns client lang image r :
  Standalone.describe client lang image = Return r →
  r.2 = 200 ∨ is_error_body r.1.
Proof.
  rewrite standalone_describe_eq. unfold result_bind.
  destruct (process_image_recognition client lang image) as [m | e]; [| done].
  destruct (parsed m); [intros [= <-]; by left |].
  destruct (truthy_str (refusal m)); intros [= <-]; right;
    apply error_body_is_error.
Qed.

Lemma gated_response_is_error described user_id db :
  (∀ r, described = Return r → r.2 = 200 ∨ is_error_body r.1) →
  (gated_response described user_id db).1.2 ≠ 200 →
  is_error_body (gated_response described user_id db).1.1.
Proof.
  intros Hdesc. unfold gated_response.
  destruct (require_credits user_id db) as [[[]|e] db']; cbn [fst snd].
  - destruct described as [r | e].
    + destruct (Hdesc r eq_refl) as [-> | Herr]; [by intros [] | done].
    + intros _. apply collaborator_failure_is_error.
  - intros _. apply gate_failure_is_error.
Qed.

Lemma app_analyze_image_is_error client api_key req db :
  (App.analyze_image client api_key req db).1.2 ≠ 200 →
  is_error_body (App.analyze_image client api_key req db).1.1.
Proof.
  destruct (app_analyze_image_cases client api_key req db)
    as [(u & l & i & _ & _ & ->) | [_ Hrej]].
  - apply gated_response_is_error. intros r Hr. right.
    by apply (app_describe_returns client l i).
  - intros _. by apply (rejected_is_error _ db).
Qed.

Lemma standalone_analyze_image_is_error client req db :
  (Standalone.analyze_image client req db).1.2 ≠ 200 →
  is_error_body (Standalone.analyze_image client req db).1.1.
Proof.
  destruct (standalone_analyze_image_cases client req db)
    as [(u & l & i & _ & _ & ->) | [_ Hrej]].
  - apply gated_response_is_error. intros r Hr.
    by apply (standalone_describe_returns client l i).
  - intros _. by apply (rejected_is_error _ db).
Qed.

Lemma app_credits_left_is_error api_key req db :
  (App.credits_left api_key req db).1.2 ≠ 200 →
  is_error_body (App.credits_left api_key req db).1.1.
Proof.
  unfold App.credits_left, App.require_api_key_and_user_id.
  destruct (_ || _); [intros _; apply error_body_is_error |].
  destruct (x_user_id req) as [u|]; [| intros _; apply error_body_is_error].
  destruct (negb _); [intros _; apply error_body_is_error |].
  unfold dispatch, App.credits_left_view, bind.
  rewrite get_user_credits_reads.
  destruct db; cbn; [by intros [] | intros _; apply error_body_is_error].
Qed.

Lemma standalone_credits_left_is_error req db :
  (Standalone.credits_left req db).1.2 ≠ 200 →
  is_error_body (Standalone.credits_left req db).1.1.
Proof.
  unfold Standalone.credits_left, Standalone.credits_left_view.
  destruct (x_user_id req) as [u|]; [| intros _; apply error_body_is_error].
  destruct (negb _); [intros _; apply error_body_is_error |].
  unfold dispatch, bind. rewrite get_user_credits_reads.
  destruct db; cbn; [by intros [] | intros _; apply error_body_is_error].
Qed.

(** C8, as stated, fails: with no [user_credits] table the client reads
    sqlite's message, which names the table, and when the collaborator
    raises the client reads the text of that exception. *)
Lemma exception_text_reaches_client :
  App.analyze_image describing_client sample_key sample_request None
  = ((error_body "no such table: user_credits", 500), None) ∧
  App.analyze_image failing_client sample_key sample_request (ledger_with 5)
  = ((error_body "Connection error.", 500), ledger_with 4) ∧
  ¬ faults_answered_generically.
Proof.
  split; [vm_compute; reflexivity |]. split; [vm_compute; reflexivity |].
  intros Hgeneric.
  specialize (Hgeneric describing_client sample_key sample_request "u1"
                (JStr "en") (JStr "aGVsbG8=") None
                sample_request_authorized sample_request_payload).
  assert (Hfault : (∃ e, (require_credits "u1" None).1 = Raise e ∧
                         is_value_error e = false) ∨
                   (∃ e, (require_credits "u1" None).1 = Return tt ∧
                         process_image_recognition describing_client
                           (JStr "en") (JStr "aGVsbG8=") = Raise e ∧
                         is_length_finish e = false)).
  { left. exists no_such_table. by split. }
  specialize (Hgeneric Hfault). vm_compute in Hgeneric. discriminate.
Qed.

(** On decoded bodies, every response that is not a success carries a body with
    the single field [error], a string.  For a fault of the store inside the
    gate, and for a collaborator fault other than an over-long completion,
    the string is the text of the exception, with status 500 (402 for the
    denial); the generic message answers only faults that leave a view, such
    as a balance query on a database without the table. *)
Lemma decoded_error_bodies client api_key (req : request) (db : database) :
  (((App.analyze_image client api_key req db).1.2 ≠ 200 →
    is_error_body (App.analyze_image client api_key req db).1.1) ∧
   ((Standalone.analyze_image client req db).1.2 ≠ 200 →
    is_error_body (Standalone.analyze_image client req db).1.1) ∧
   ((App.credits_left api_key req db).1.2 ≠ 200 →
    is_error_body (App.credits_left api_key req db).1.1) ∧
   ((Standalone.credits_left req db).1.2 ≠ 200 →
    is_error_body (Standalone.credits_left req db).1.1)) ∧
  (∀ user_id lang image e,
     authorized api_key req user_id → payload req lang image →
     (require_credits user_id db).1 = Raise e →
     (App.analyze_image client api_key req db).1
     = (error_body (str e), if is_value_error e then 402 else 500)) ∧
  (∀ user_id lang image e,
     authorized api_key req user_id → payload req lang image →
     (require_credits user_id db).1 = Return tt →
     process_image_recognition client lang image = Raise e →
     is_length_finish e = false →
     (App.analyze_image client api_key req db).1 = (error_body (str e), 500)) ∧
  (∀ user_id, authorized api_key req user_id →
     App.credits_left api_key req None
     = ((error_body "Internal server error", 500), None)).
Proof.
  split.
  { split; [apply app_analyze_image_is_error |].
    split; [apply standalone_analyze_image_is_error |].
    split; [apply app_credits_left_is_error
           | apply standalone_credits_left_is_error]. }
  split.
  { intros u lang image e Hauth Hpay Hraise.
    rewrite (app_analyze_image_valid _ _ _ _ _ _ _ Hauth Hpay).
    unfold gated_response.
    destruct (require_credits u db) as [[[]|e'] db']; [discriminate |].
    injection Hraise as ->. unfold gate_failure.
    by destruct (is_value_error e). }
  split.
  { intros u lang image e Hauth Hpay Hadm Hraise Hlen.
    rewrite (app_analyze_image_valid _ _ _ _ _ _ _ Hauth Hpay).
    unfold gated_response. rewrite app_describe_eq, Hraise.
    destruct (require_credits u db) as [[[]|e'] db']; [| discriminate].
    cbn. unfold collaborator_failure. by rewrite Hlen. }
  intros u Hauth. by rewrite (app_credits_left_valid _ _ _ _ Hauth).
Qed.

(** ** Interleaved and sequential calls *)

(** A call that no other call interrupts is a call of [require_credits]. *)
Lemma run_alone_require_credits user_id db :
  Interleaving.run_alone user_id db
  = (Interleaving.Finished (require_credits user_id db).1,
     (require_credits user_id db).2).
Proof.
  unfold Interleaving.run_alone, require_credits, bind.
  destruct db as [t|]; [| reflexivity]. cbn [Interleaving.step insert_or_ignore].
  destruct (t !! user_id) as [b|] eqn:Hb.
  - cbn [Interleaving.step]. rewrite !get_user_credits_reads, Hb.
    destruct (b <? 1); reflexivity.
  - cbn [Interleaving.step]. rewrite !get_user_credits_reads, lookup_insert_eq.
    reflexivity.
Qed.

Lemma run_app s1 s2 cs db :
  Interleaving.run (s1 ++ s2) cs db
  = Interleaving.run s2 (Interleaving.run s1 cs db).1 (Interleaving.run s1 cs db).2.
Proof.
  revert cs db. induction s1 as [| i s1 IH]; intros cs db; [reflexivity |].
  cbn [app Interleaving.run]. destruct (cs !! i) as [[u p]|]; [| apply IH].
  destruct (Interleaving.step u p db) as [p' db']. apply IH.
Qed.

Lemma run_cons i rest user_id p cs db :
  cs !! i = Some (user_id, p) →
  Interleaving.run (i :: rest) cs db
  = Interleaving.run rest
      (<[i := (user_id, (Interleaving.step user_id p db).1)]> cs)
      (Interleaving.step user_id p db).2.
Proof.
  intros Hi. cbn [Interleaving.run]. rewrite Hi.
  by destruct (Interleaving.step user_id p db).
Qed.

Lemma run_three_blocks i user_id cs db :
  cs !! i = Some (user_id, Interleaving.BeforeInsert) →
  Interleaving.run (replicate 3 i) cs db
  = (<[i := (user_id, Interleaving.Finished (require_credits user_id db).1)]> cs,
     (require_credits user_id db).2).
Proof.
  intros Hi. pose proof (lookup_lt_Some _ _ _ Hi) as Hlen.
  pose proof (run_alone_require_credits user_id db) as Halone.
  unfold Interleaving.run_alone in Halone.
  destruct (Interleaving.step user_id Interleaving.BeforeInsert db)
    as [p1 db1] eqn:H1.
  destruct (Interleaving.step user_id p1 db1) as [p2 db2] eqn:H2.
  cbn [replicate]. rewrite (run_cons _ _ _ _ _ _ Hi), H1. cbn [fst snd].
  rewrite (run_cons _ _ user_id p1), H2
    by (by apply list_lookup_insert_eq). cbn [fst snd].
  rewrite (run_cons _ _ user_id p2), Halone
    by (apply list_lookup_insert_eq; by rewrite length_insert).
  cbn [fst snd Interleaving.run]. by rewrite !list_insert_insert_eq.
Qed.

Lemma serial_cons i order : serial (i :: order) = (replicate 3 i ++ serial order)%list.
Proof. reflexivity. Qed.

Lemma count_ok_cons a (l : list admission) :
  count_ok (a :: l) = ((if decide (a = Ok) then 1 else 0) + count_ok l)%nat.
Proof. unfold count_ok. cbn. by destruct (decide (a = Ok)). Qed.

(** Calls that run in turn give the outcomes of [credit_gate_seq]. *)
Lemma run_serial_calls k user_id :
  ∀ j (done : Interleaving.calls) db,
    length done = j →
    ∃ fin,
      Interleaving.run (serial (seq j k))
        (done ++ Interleaving.fresh_calls k user_id) db
      = (done ++ fin, (credit_gate_seq k user_id db).2)%list ∧
      Interleaving.outcomes fin = (credit_gate_seq k user_id db).1.*1 ∧
      Interleaving.all_finished fin = true.
Proof.
  induction k as [| k IH]; intros j done db Hlen.
  - exists []. by cbn.
  - cbn [seq]. rewrite serial_cons, run_app.
    change (Interleaving.fresh_calls (S k) user_id)
      with ((user_id, Interleaving.BeforeInsert)
              :: Interleaving.fresh_calls k user_id) in *.
    assert (Hj : (done ++ (user_id, Interleaving.BeforeInsert)
                            :: Interleaving.fresh_calls k user_id) !! j
                 = Some (user_id, Interleaving.BeforeInsert)).
    { subst j. by rewrite list_lookup_middle. }
    rewrite (run_three_blocks _ _ _ _ Hj). cbn [fst snd].
    set (r := (require_credits user_id db).1).
    set (db1 := (require_credits user_id db).2).
    assert (Hins : <[j := (user_id, Interleaving.Finished r)]>
                     (done ++ (user_id, Interleaving.BeforeInsert)
                                :: Interleaving.fresh_calls k user_id)
                   = ((done ++ [(user_id, Interleaving.Finished r)])
                        ++ Interleaving.fresh_calls k user_id)%list).
    { subst j. rewrite <- (Nat.add_0_r (length done)), insert_app_r.
      by rewrite <- app_assoc. }
    rewrite Hins.
    destruct (IH (S j) (done ++ [(user_id, Interleaving.Finished r)])%list db1)
      as (fin & Hrun & Hout & Hfin).
    { rewrite length_app. cbn. lia. }
    exists ((user_id, Interleaving.Finished r) :: fin).
    assert (Hgate : credit_gate user_id db = (admission_of r, db1)).
    { unfold credit_gate, r, db1. by destruct (require_credits user_id db). }
    rewrite gate_seq_S, Hgate. cbn [fst snd].
    split; [by rewrite Hrun, <- app_assoc |]. split; [| exact Hfin].
    unfold Interleaving.outcomes in *. cbn. by rewrite Hout.
Qed.

(** A user with [b >= 0] credits is admitted [min n b] times in [n] calls. *)
Lemma count_ok_stored n user_id (t : table) :
  ∀ b, 0 ≤ b →
    count_ok (credit_gate_seq n user_id (Some (<[user_id := b]> t))).1.*1
    = (n `min` Z.to_nat b)%nat.
Proof.
  induction n as [| n IH]; intros b Hb; [reflexivity |].
  destruct (Z.lt_ge_cases b 1) as [Hlow | Hpos].
  - rewrite gate_seq_denied by done. cbn [fst].
    assert (b = 0) as -> by lia. rewrite Nat.min_0_r.
    generalize (S n). intros m. induction m as [| m IHm]; [reflexivity |].
    cbn [replicate fmap list_fmap fst]. by rewrite count_ok_cons, IHm.
  - rewrite gate_seq_S, gate_stored_positive by done. cbn [fst snd fmap list_fmap].
    rewrite count_ok_cons, IH by lia. rewrite decide_True by done. lia.
Qed.

Lemma count_ok_fresh n user_id (t : table) :
  t !! user_id = None →
  count_ok (credit_gate_seq n user_id (Some t)).1.*1 = (n `min` 10)%nat.
Proof.
  intros Habs. destruct n as [| n]; [reflexivity |].
  rewrite gate_seq_S, (gate_absent _ _ Habs). cbn [fst snd fmap list_fmap].
  rewrite count_ok_cons, count_ok_stored by lia. rewrite decide_True by done.
  lia.
Qed.

Lemma two_calls_in_turn i j user_id (t : table) :
  (i = 0%nat ∧ j = 1%nat) ∨ (i = 1%nat ∧ j = 0%nat) →
  t !! user_id = Some 1 →
  Interleaving.run (serial [i; j]) (Interleaving.fresh_calls 2 user_id) (Some t)
  = (<[j := (user_id, Interleaving.Finished (Raise no_more_credits))]>
       (<[i := (user_id, Interleaving.Finished (Return tt))]>
          (Interleaving.fresh_calls 2 user_id)),
     Some (<[user_id := 0]> t)).
Proof.
  intros Horder Hb.
  assert (Hi : Interleaving.fresh_calls 2 user_id !! i
               = Some (user_id, Interleaving.BeforeInsert))
    by (by destruct Horder as [[-> ->] | [-> ->]]).
  assert (Hj : <[i := (user_id, Interleaving.Finished (Return tt))]>
                 (Interleaving.fresh_calls 2 user_id) !! j
               = Some (user_id, Interleaving.BeforeInsert))
    by (by destruct Horder as [[-> ->] | [-> ->]]).
  rewrite !serial_cons, !run_app. change (serial []) with (@nil nat).
  rewrite (run_three_blocks _ _ _ _ Hi).
  rewrite (require_credits_positive _ _ 1 Hb) by lia. cbn [fst snd].
  rewrite (run_three_blocks _ _ _ _ Hj).
  rewrite (require_credits_exhausted _ _ (1 - 1))
    by (apply lookup_insert_eq || lia).
  reflexivity.
Qed.

(** C1, as stated, fails: scheduled block by block in alternation, two
    calls for a user with one credit both read the balance 1 and both return
    without raising; and eleven calls for a new user that all read before any
    of them writes are all admitted. *)
Lemma interleaved_calls_double_spend :
  Interleaving.run [0; 1; 0; 1; 0; 1]%nat
    (Interleaving.fresh_calls 2 "u1") (ledger_with 1)
  = ([("u1", Interleaving.Finished (Return tt));
      ("u1", Interleaving.Finished (Return tt))], ledger_with 0) ∧
  count_ok (Interleaving.outcomes
              (Interleaving.run (lockstep 11)
                 (Interleaving.fresh_calls 11 "u1") (Some ∅)).1) = 11%nat ∧
  ¬ admissions_are_serialized.
Proof.
  assert (Hrun : Interleaving.run [0; 1; 0; 1; 0; 1]%nat
                   (Interleaving.fresh_calls 2 "u1") (ledger_with 1)
                 = ([("u1", Interleaving.Finished (Return tt));
                     ("u1", Interleaving.Finished (Return tt))], ledger_with 0))
    by (vm_compute; reflexivity).
  split; [exact Hrun |]. split; [vm_compute; reflexivity |].
  intros Hserial.
  assert (Hb : ({["u1" := 1]} : table) !! "u1" = Some 1) by reflexivity.
  destruct (Hserial _ "u1" {["u1" := 1]} _ _ Hb Hrun) as [Hperm _];
    [reflexivity |].
  cbn in Hperm. apply Permutation_cons_inv, Permutation_length_1 in Hperm.
  discriminate.
Qed.

(** C1, amended: when the calls run one after the other, two calls for a
    user whose stored balance is 1 end with one admitted, one denied and the
    balance at 0, in either order; and of [n] calls for a new user exactly
    [min n 10] are admitted, so never more than the allowance of 10. *)
Theorem sequential_admissions (user_id : string) (t : table) :
  (t !! user_id = Some 1 →
   ∀ order, order = [0; 1]%nat ∨ order = [1; 0]%nat →
     let out := Interleaving.run (serial order)
                  (Interleaving.fresh_calls 2 user_id) (Some t) in
     Interleaving.all_finished out.1 = true ∧
     Interleaving.outcomes out.1 ≡ₚ [Ok; Denied] ∧
     balance out.2 user_id = Some 0) ∧
  (t !! user_id = None →
   ∀ n,
     let out := Interleaving.run (serial (seq 0 n))
                  (Interleaving.fresh_calls n user_id) (Some t) in
     Interleaving.all_finished out.1 = true ∧
     count_ok (Interleaving.outcomes out.1) = (n `min` 10)%nat ∧
     (count_ok (Interleaving.outcomes out.1) ≤ 10)%nat).
Proof.
  split.
  - intros Hb order [-> | ->]; cbn zeta.
    + rewrite (two_calls_in_turn 0 1) by auto. cbn [fst snd balance].
      rewrite lookup_insert_eq. split; [reflexivity |]. split; reflexivity.
    + rewrite (two_calls_in_turn 1 0) by auto. cbn [fst snd balance].
      rewrite lookup_insert_eq. split; [reflexivity |]. split; [| reflexivity].
      cbn. apply Permutation_swap.
  - intros Habs n. cbn zeta.
    destruct (run_serial_calls n user_id 0 [] (Some t) eq_refl)
      as (fin & Hrun & Hout & Hfin).
    cbn [app] in Hrun. rewrite Hrun. cbn [fst snd].
    rewrite Hout, (count_ok_fresh _ _ _ Habs).
    split; [exact Hfin |]. split; [reflexivity | lia].
Qed.

Lemma sequential_admissions_witness :
  ({["u1" := 1]} : table) !! "u1" = Some 1 ∧
  Interleaving.outcomes
    (Interleaving.run (serial [0; 1]%nat)
       (Interleaving.fresh_calls 2 "u1") (ledger_with 1)).1 ≡ₚ [Ok; Denied] ∧
  balance
    (Interleaving.run (serial [1; 0]%nat)
       (Interleaving.fresh_calls 2 "u1") (ledger_with 1)).2 "u1" = Some 0 ∧
  (∅ : table) !! "u1" = None ∧
  count_ok (Interleaving.outcomes
              (Interleaving.run (serial (seq 0 12))
                 (Interleaving.fresh_calls 12 "u1") (Some ∅)).1) = 10%nat.
Proof.
  destruct (sequential_admissions "u1" {["u1" := 1]}) as [Htwo _].
  destruct (sequential_admissions "u1" ∅) as [_ Hfresh].
  assert (Hb : ({["u1" := 1]} : table) !! "u1" = Some 1) by reflexivity.
  assert (Habs : (∅ : table) !! "u1" = None) by reflexivity.
  split; [exact Hb |].
  split; [exact (proj1 (proj2 (Htwo Hb [0; 1]%nat (or_introl eq_refl)))) |].
  split; [exact (proj2 (proj2 (Htwo Hb [1; 0]%nat (or_intror eq_refl)))) |].
  split; [exact Habs |].
  exact (proj1 (proj2 (Hfresh Habs 12%nat))).
Defined.

(** * Further properties of the ledger functions *)

Lemma require_credits_table user_id (t : table) :
  require_credits user_id (Some t)
  = match t !! user_id with
    | None => (Return tt, Some (<[user_id := 9]> t))
    | Some b =>
        if (b <? 1)%Z then (Raise no_more_credits, Some t)
        else (Return tt, Some (<[user_id := b - 1]> t))
    end.
Proof.
  destruct (t !! user_id) as [b|] eqn:Hb.
  - destruct (Z.ltb_spec b 1).
    + by apply (require_credits_exhausted _ _ b).
    + by apply require_credits_positive.
  - by apply require_credits_absent.
Qed.

(** X1: for an amount that is a SQLite INTEGER (signed 64-bit, the
    amounts sqlite3 binds), [set_user_credits] followed by [get_user_credits]
    reads back the amount written, whether or not the user had an entry; the
    other users keep their balances, and of two such writes the later one
    stands. *)
Theorem set_then_get (user_id : string) (amount : Z) (t : table) :
  sqlite_integer amount →
  (set_user_credits user_id amount (Some t)).1 = Return tt ∧
  (get_user_credits user_id (set_user_credits user_id amount (Some t)).2).1
  = Return (Some amount) ∧
  (∀ other, other ≠ user_id →
     balance (set_user_credits user_id amount (Some t)).2 other
     = balance (Some t) other) ∧
  (∀ earlier, sqlite_integer earlier →
     set_user_credits user_id amount
       (set_user_credits user_id earlier (Some t)).2
     = set_user_credits user_id amount (Some t)).
Proof.
  intros _. split; [reflexivity |]. split.
  { cbn. by rewrite lookup_insert_eq. }
  split.
  { intros other Hne. cbn. by rewrite lookup_insert_ne. }
  intros earlier _. cbn. by rewrite insert_insert_eq.
Qed.

Lemma set_then_get_witness :
  sqlite_integer 25 ∧
  (get_user_credits "u1" (set_user_credits "u1" 25 (ledger_with 0)).2).1
  = Return (Some 25) ∧
  "u2" ≠ "u1" ∧
  balance (set_user_credits "u1" 25 (Some {["u2" := 4]})).2 "u2"
  = balance (Some {["u2" := 4]}) "u2" ∧
  sqlite_integer 7 ∧
  set_user_credits "u1" 25 (set_user_credits "u1" 7 (ledger_with 0)).2
  = set_user_credits "u1" 25 (ledger_with 0).
Proof.
  assert (Hne : "u2" ≠ "u1") by discriminate.
  assert (Hint : sqlite_integer 25) by (unfold sqlite_integer; lia).
  assert (Hint' : sqlite_integer 7) by (unfold sqlite_integer; lia).
  split; [exact Hint |].
  split; [exact (proj1 (proj2 (set_then_get "u1" 25 {["u1" := 0]} Hint))) |].
  split; [exact Hne |].
  split; [exact (proj1 (proj2 (proj2 (set_then_get "u1" 25 {["u2" := 4]} Hint)))
                   "u2" Hne) |].
  split; [exact Hint' |].
  exact (proj2 (proj2 (proj2 (set_then_get "u1" 25 {["u1" := 0]} Hint))) 7 Hint').
Defined.

(** X2: [set_user_credits] applies no floor.  A SQLite INTEGER below 1,
    negative ones included, is stored as given; from then on every call of
    [require_credits] for that user is denied and the stored amount stays
    what it is. *)
Theorem low_amount_is_stored (user_id : string) (amount : Z) (t : table) (n : nat) :
  sqlite_integer amount → amount < 1 →
  balance (set_user_credits user_id amount (Some t)).2 user_id = Some amount ∧
  credit_gate_seq n user_id (set_user_credits user_id amount (Some t)).2
  = (replicate n (Denied, Some amount), Some (<[user_id := amount]> t)).
Proof.
  intros _ Hlow. cbn [set_user_credits upsert_credits snd balance].
  split; [apply lookup_insert_eq | by apply gate_seq_denied].
Qed.

Lemma low_amount_is_stored_witness :
  sqlite_integer (-5) ∧ -5 < 1 ∧
  balance (set_user_credits "u1" (-5) (ledger_with 3)).2 "u1" = Some (-5) ∧
  credit_gate_seq 2 "u1" (set_user_credits "u1" (-5) (ledger_with 3)).2
  = ([(Denied, Some (-5)); (Denied, Some (-5))],
     Some (<["u1" := -5]> {["u1" := 3]})).
Proof.
  assert (Hlow : -5 < 1) by lia.
  assert (Hint : sqlite_integer (-5)) by (unfold sqlite_integer; lia).
  split; [exact Hint |]. split; [exact Hlow |].
  exact (low_amount_is_stored "u1" (-5) {["u1" := 3]} 2 Hint Hlow).
Defined.




Lemma require_credits_keeps_entries user_id (t : table) :
  ∃ t', (require_credits user_id (Some t)).2 = Some t' ∧ dom t ⊆ dom t'.
Proof.
  rewrite require_credits_table. destruct (t !! user_id) as [b|].
  - destruct (b <? 1); eexists; (split; [reflexivity |]);
      [done | apply dom_insert_subseteq].
  - eexists. split; [reflexivity | apply dom_insert_subseteq].
Qed.

(** X4: no operation drops the table or deletes an entry.  From a database
    that has the table, [set_user_credits], [require_credits] and the four
    routes of the two servers all end in a database that has the table and an
    entry for every user that had one. *)
Theorem entries_are_never_deleted client api_key (user_id : string)
    (amount : Z) (req : request) (t : table) :
  (∃ t', (set_user_credits user_id amount (Some t)).2 = Some t' ∧ dom t ⊆ dom t') ∧
  (∃ t', (require_credits user_id (Some t)).2 = Some t' ∧ dom t ⊆ dom t') ∧
  (∃ t', (App.credits_left api_key req (Some t)).2 = Some t' ∧ dom t ⊆ dom t') ∧
  (∃ t', (Standalone.credits_left req (Some t)).2 = Some t' ∧ dom t ⊆ dom t') ∧
  (∃ t', (App.analyze_image client api_key req (Some t)).2 = Some t' ∧
         dom t ⊆ dom t') ∧
  (∃ t', (Standalone.analyze_image client req (Some t)).2 = Some t' ∧
         dom t ⊆ dom t').
Proof.
  split; [eexists; split; [reflexivity | apply dom_insert_subseteq] |].
  split; [apply require_credits_keeps_entries |].
  split; [exists t; by rewrite app_credits_left_frame |].
  split; [exists t; by rewrite standalone_credits_left_frame |].
  split.
  - destruct (app_analyze_image_writes client api_key req (Some t))
      as [-> | (u & _ & ->)]; [by exists t | apply require_credits_keeps_entries].
  - destruct (standalone_analyze_image_writes client req (Some t))
      as [-> | (u & _ & ->)]; [by exists t | apply require_credits_keeps_entries].
Qed.

Lemma gate_seq_O user_id db : credit_gate_seq 0 user_id db = ([], db).
Proof. reflexivity. Qed.

(** X5: a user with a stored balance [b >= 0] who calls [require_credits]
    [n] times in sequence is admitted in the first [min n b] calls, with the
    balance going down by one each time, and denied in all the others; the
    balance ends at [b - min n b]. *)
Theorem stored_balance_is_spent_once (user_id : string) (t : table) (b : Z)
    (n : nat) :
  t !! user_id = Some b → 0 ≤ b →
  credit_gate_seq n user_id (Some t)
  = (((λ i, (Ok, Some (b - Z.of_nat i))) <$> seq 1 (n `min` Z.to_nat b))
       ++ replicate (n - n `min` Z.to_nat b)%nat
            (Denied, Some (b - Z.of_nat (n `min` Z.to_nat b))),
     Some (<[user_id := b - Z.of_nat (n `min` Z.to_nat b)]> t)).
Proof.
  intros Hb Hpos. rewrite <- (insert_id t user_id b Hb) at 1.
  set (m := (n `min` Z.to_nat b)%nat).
  replace n with (m + (n - m))%nat at 1 by lia.
  rewrite gate_seq_app, gate_seq_countdown by lia. cbn [fst snd].
  destruct (decide (n - m = 0)%nat) as [-> | Hmore].
  - rewrite gate_seq_O. reflexivity.
  - rewrite gate_seq_denied by lia. reflexivity.
Qed.

Lemma stored_balance_is_spent_once_witness :
  ({["u1" := 2]} : table) !! "u1" = Some 2 ∧ 0 ≤ 2 ∧
  credit_gate_seq 4 "u1" (ledger_with 2)
  = ([(Ok, Some 1); (Ok, Some 0); (Denied, Some 0); (Denied, Some 0)],
     Some (<["u1" := 0]> {["u1" := 2]})).
Proof.
  assert (Hb : ({["u1" := 2]} : table) !! "u1" = Some 2) by reflexivity.
  assert (Hpos : 0 ≤ 2) by lia.
  split; [exact Hb |]. split; [exact Hpos |].
  exact (stored_balance_is_spent_once "u1" {["u1" := 2]} 2 4 Hb Hpos).
Defined.

(** X6: calls for two different users do not depend on each other's
    order: both orders give each user the same outcome and end in the same
    database. *)
Theorem distinct_users_commute (u1 u2 : string) (db : database) :
  u1 ≠ u2 →
  (require_credits u1 (require_credits u2 db).2).1 = (require_credits u1 db).1 ∧
  (require_credits u2 (require_credits u1 db).2).1 = (require_credits u2 db).1 ∧
  (require_credits u1 (require_credits u2 db).2).2
  = (require_credits u2 (require_credits u1 db).2).2.
Proof.
  intros Hne. destruct db as [t|]; [| done].
  assert (Hne' : u2 ≠ u1) by congruence.
  rewrite (require_credits_table u2 t), (require_credits_table u1 t).
  destruct (t !! u1) as [b1|] eqn:H1; destruct (t !! u2) as [b2|] eqn:H2;
    try destruct (b1 <? 1) eqn:Hlow1; try destruct (b2 <? 1) eqn:Hlow2;
    cbn [fst snd]; rewrite !require_credits_table;
    rewrite ?lookup_insert_ne by done; rewrite ?H1, ?H2, ?Hlow1, ?Hlow2;
    cbn [fst snd]; repeat split; try done;
    by rewrite insert_insert_ne.
Qed.

Lemma distinct_users_commute_witness :
  "u1" ≠ "u2" ∧
  (require_credits "u1" (require_credits "u2" (ledger_with 1)).2).2
  = (require_credits "u2" (require_credits "u1" (ledger_with 1)).2).2.
Proof.
  assert (Hne : "u1" ≠ "u2") by discriminate.
  split; [exact Hne |].
  exact (proj2 (proj2 (distinct_users_commute "u1" "u2" (ledger_with 1) Hne))).
Defined.

(** * Further properties of interleaved calls *)

Lemma step_other user_id p db other :
  other ≠ user_id →
  balance (Interleaving.step user_id p db).2 other = balance db other.
Proof.
  intros Hne. destruct p as [| | c | r]; cbn [Interleaving.step].
  - destruct db as [t|]; cbn; [| done].
    destruct (t !! user_id); cbn; [done | by rewrite lookup_insert_ne].
  - rewrite get_user_credits_reads. destruct db as [t|]; cbn; [| done].
    destruct (t !! user_id) as [c|]; cbn; [| done]. by destruct (c <? 1).
  - destruct db as [t|]; cbn; [| done]. by rewrite lookup_insert_ne.
  - done.
Qed.

Lemma step_keeps_entry user_id p db other :
  is_Some (balance db other) →
  is_Some (balance (Interleaving.step user_id p db).2 other).
Proof.
  intros Hsome. destruct (decide (other = user_id)) as [-> | Hne];
    [| by rewrite step_other].
  destruct db as [t|]; [| by destruct Hsome]. cbn in Hsome.
  destruct Hsome as [b Hb].
  destruct p as [| | c | r]; cbn [Interleaving.step].
  - cbn. rewrite Hb. cbn. by rewrite Hb.
  - rewrite get_user_credits_reads, Hb. destruct (b <? 1); cbn; by rewrite Hb.
  - cbn. by rewrite lookup_insert_eq.
  - cbn. by rewrite Hb.
Qed.

Lemma run_isolated (schedule : list nat)
    (cs : Interleaving.calls) (db : database) (other : string) :
  (Forall (λ c, c.1 ≠ other) cs →
   balance (Interleaving.run schedule cs db).2 other = balance db other) ∧
  (is_Some (balance db other) →
   is_Some (balance (Interleaving.run schedule cs db).2 other)).
Proof.
  revert cs db. induction schedule as [| i rest IH]; intros cs db; [done |].
  cbn [Interleaving.run]. destruct (cs !! i) as [[u p]|] eqn:Hi; [| apply IH].
  destruct (Interleaving.step u p db) as [p' db'] eqn:Hstep.
  assert (Hdb : db' = (Interleaving.step u p db).2) by by rewrite Hstep.
  destruct (IH (<[i := (u, p')]> cs) db') as [IHother IHsome]. split.
  - intros Hcs. pose proof (Forall_lookup_1 _ _ _ _ Hcs Hi) as Hu. cbn in Hu.
    rewrite IHother; [| by apply Forall_insert].
    rewrite Hdb. apply step_other. congruence.
  - intros Hsome. apply IHsome. rewrite Hdb. by apply step_keeps_entry.
Qed.

(** X7: calls for one user never touch the balance of another, however
    their blocks are scheduled, and no entry disappears during a run. *)
Theorem interleaved_calls_are_isolated (schedule : list nat)
    (cs : Interleaving.calls) (db : database) (other : string) :
  (Forall (λ c, c.1 ≠ other) cs →
   balance (Interleaving.run schedule cs db).2 other = balance db other) ∧
  (is_Some (balance db other) →
   is_Some (balance (Interleaving.run schedule cs db).2 other)).
Proof. apply run_isolated. Qed.

Lemma interleaved_calls_are_isolated_witness :
  Forall (λ c : string * Interleaving.progress, c.1 ≠ "u2")
    (Interleaving.fresh_calls 2 "u1") ∧
  balance (Interleaving.run (lockstep 2) (Interleaving.fresh_calls 2 "u1")
             (Some {["u2" := 4]})).2 "u2"
  = balance (Some {["u2" := 4]}) "u2" ∧
  is_Some (balance (ledger_with 1) "u1") ∧
  is_Some (balance (Interleaving.run (lockstep 2)
                      (Interleaving.fresh_calls 2 "u1") (ledger_with 1)).2 "u1").
Proof.
  assert (Hcs : Forall (λ c : string * Interleaving.progress, c.1 ≠ "u2")
                  (Interleaving.fresh_calls 2 "u1"))
    by (repeat constructor; discriminate).
  assert (Hsome : is_Some (balance (ledger_with 1) "u1")) by (by exists 1).
  split; [exact Hcs |].
  split; [exact (proj1 (interleaved_calls_are_isolated (lockstep 2)
                          (Interleaving.fresh_calls 2 "u1")
                          (Some {["u2" := 4]}) "u2") Hcs) |].
  split; [exact Hsome |].
  exact (proj2 (interleaved_calls_are_isolated (lockstep 2)
                  (Interleaving.fresh_calls 2 "u1") (ledger_with 1) "u1") Hsome).
Defined.

Lemma ok_count_cons c (cs : Interleaving.calls) :
  ok_count (c :: cs) = (ok_count [c] + ok_count cs)%nat.
Proof.
  unfold ok_count, Interleaving.outcomes, count_ok. cbn.
  destruct (Interleaving.outcome c) as [a|]; [| done]. cbn.
  by destruct (decide (a = Ok)).
Qed.

Lemma ok_count_insert (cs : Interleaving.calls) :
  ∀ i c c', cs !! i = Some c →
    (ok_count (<[i := c']> cs) + ok_count [c] = ok_count cs + ok_count [c'])%nat.
Proof.
  induction cs as [| x cs IH]; intros i c c' Hi; [done |].
  destruct i as [| i]; cbn in Hi.
  - injection Hi as ->. change (<[0%nat := c']> (c :: cs)) with (c' :: cs).
    rewrite (ok_count_cons c' cs), (ok_count_cons c cs). lia.
  - change (<[S i := c']> (x :: cs)) with (x :: <[i := c']> cs).
    rewrite (ok_count_cons x cs), (ok_count_cons x (<[i := c']> cs)).
    specialize (IH i c c' Hi). lia.
Qed.

Lemma read_within_weaken lo lo' hi c :
  lo' ≤ lo → read_within lo hi c → read_within lo' hi c.
Proof.
  unfold read_within. destruct (c.2); try done. intros Hle Hc. lia.
Qed.

(** One block of a call: the balance moves down by one exactly when the
    call returns without raising, and a value read stays within the bounds. *)
Lemma step_charge user_id b0 (w : Z) p (t : table) :
  read_within (b0 - w) b0 (user_id, p) →
  b0 - w ≤ effective_balance (Some t) user_id ≤ b0 →
  let p' := (Interleaving.step user_id p (Some t)).1 in
  let db' := (Interleaving.step user_id p (Some t)).2 in
  let d := Z.of_nat (ok_count [(user_id, p')]) - Z.of_nat (ok_count [(user_id, p)]) in
  0 ≤ d ∧ (∃ t', db' = Some t') ∧
  read_within (b0 - w - d) b0 (user_id, p') ∧
  b0 - w - d ≤ effective_balance db' user_id ≤ b0.
Proof.
  unfold effective_balance, read_within. intros Hp Hbal.
  destruct p as [| | c | r]; cbn [Interleaving.step] in *.
  - cbn in *. destruct (t !! user_id) as [b|] eqn:Hb; cbn in *.
    + rewrite Hb. cbn. split; [lia |]. split; [by eexists |]. split; [done | lia].
    + rewrite lookup_insert_eq. cbn.
      split; [lia |]. split; [by eexists |]. split; [done | lia].
  - rewrite get_user_credits_reads. cbn in *.
    destruct (t !! user_id) as [b|] eqn:Hb; cbn in *.
    + destruct (Z.ltb_spec b 1); cbn; rewrite Hb; cbn;
        (split; [lia |]); (split; [by eexists |]); split; (done || lia).
    + rewrite Hb. cbn. split; [lia |]. split; [by eexists |]. split; [done | lia].
  - cbn in *. rewrite lookup_insert_eq, !decide_True by done. cbn.
    split; [lia |]. split; [by eexists |]. split; [done | lia].
  - cbn in *. split; [lia |]. split; [by eexists |]. split; [done | lia].
Qed.

Lemma run_charge user_id b0 schedule :
  ∀ (cs : Interleaving.calls) (t : table),
    Forall (λ c, c.1 = user_id) cs →
    Forall (read_within (b0 - Z.of_nat (ok_count cs)) b0) cs →
    b0 - Z.of_nat (ok_count cs) ≤ effective_balance (Some t) user_id ≤ b0 →
    b0 - Z.of_nat (ok_count (Interleaving.run schedule cs (Some t)).1)
    ≤ effective_balance (Interleaving.run schedule cs (Some t)).2 user_id ≤ b0.
Proof.
  induction schedule as [| i rest IH]; intros cs t Hu Hread Hbal; [done |].
  cbn [Interleaving.run]. destruct (cs !! i) as [[u p]|] eqn:Hi; [| by apply IH].
  pose proof (Forall_lookup_1 _ _ _ _ Hu Hi) as Hui. cbn in Hui. subst u.
  pose proof (Forall_lookup_1 _ _ _ _ Hread Hi) as Hp.
  pose proof (step_charge user_id b0 _ p t Hp Hbal) as Hstep. cbn zeta in Hstep.
  destruct (Interleaving.step user_id p (Some t)) as [p' db'].
  cbn [fst snd] in Hstep. destruct Hstep as (Hd & [t' ->] & Hp' & Hbal').
  pose proof (ok_count_insert cs i (user_id, p) (user_id, p') Hi) as Hcount.
  apply IH.
  - by apply Forall_insert.
  - apply Forall_insert.
    + eapply Forall_impl; [exact Hread |]. intros c.
      apply read_within_weaken. lia.
    + eapply read_within_weaken; [| exact Hp']. lia.
  - lia.
Qed.

Lemma contention_step_charge locked user_id b0 (w : Z) p (t : table) :
  read_within (b0 - w) b0 (user_id, p) →
  b0 - w ≤ effective_balance (Some t) user_id ≤ b0 →
  let p' := (Contention.step locked user_id p (Some t)).1 in
  let db' := (Contention.step locked user_id p (Some t)).2 in
  let d := Z.of_nat (ok_count [(user_id, p')]) - Z.of_nat (ok_count [(user_id, p)]) in
  0 ≤ d ∧ (∃ t', db' = Some t') ∧
  read_within (b0 - w - d) b0 (user_id, p') ∧
  b0 - w - d ≤ effective_balance db' user_id ≤ b0.
Proof.
  destruct locked; [| apply step_charge].
  unfold effective_balance, read_within. intros Hp Hbal.
  destruct p as [| | c | r]; cbn in *;
    (split; [lia |]); (split; [by eexists |]); (split; [done | lia]).
Qed.

Lemma contention_run_charge user_id b0 schedule :
  ∀ (cs : Interleaving.calls) (t : table),
    Forall (λ c, c.1 = user_id) cs →
    Forall (read_within (b0 - Z.of_nat (ok_count cs)) b0) cs →
    b0 - Z.of_nat (ok_count cs) ≤ effective_balance (Some t) user_id ≤ b0 →
    b0 - Z.of_nat (ok_count (Contention.run schedule cs (Some t)).1)
    ≤ effective_balance (Contention.run schedule cs (Some t)).2 user_id ≤ b0.
Proof.
  induction schedule as [| [i locked] rest IH]; intros cs t Hu Hread Hbal;
    [done |].
  cbn [Contention.run]. destruct (cs !! i) as [[u p]|] eqn:Hi; [| by apply IH].
  pose proof (Forall_lookup_1 _ _ _ _ Hu Hi) as Hui. cbn in Hui. subst u.
  pose proof (Forall_lookup_1 _ _ _ _ Hread Hi) as Hp.
  pose proof (contention_step_charge locked user_id b0 _ p t Hp Hbal) as Hstep.
  cbn zeta in Hstep.
  destruct (Contention.step locked user_id p (Some t)) as [p' db'].
  cbn [fst snd] in Hstep. destruct Hstep as (Hd & [t' ->] & Hp' & Hbal').
  pose proof (ok_count_insert cs i (user_id, p) (user_id, p') Hi) as Hcount.
  apply IH.
  - by apply Forall_insert.
  - apply Forall_insert.
    + eapply Forall_impl; [exact Hread |]. intros c.
      apply read_within_weaken. lia.
    + eapply read_within_weaken; [| exact Hp']. lia.
  - lia.
Qed.

(** X8: however the blocks of [n] calls for one user are scheduled, and
    at whatever point the schedule stops, the balance lies between the
    starting balance less the number of calls that have returned without
    raising and the starting balance: the calls never take more credits than
    the number of them that were admitted, and the balance is never above
    where it started.  (A user without an entry starts at the default of
    10.)  The same bounds hold when blocks fail on a locked database. *)
Theorem interleaving_never_overcharges (schedule : list nat) (n : nat)
    (user_id : string) (t : table) :
  let out := Interleaving.run schedule (Interleaving.fresh_calls n user_id)
               (Some t) in
  (effective_balance (Some t) user_id - Z.of_nat (ok_count out.1)
   ≤ effective_balance out.2 user_id ≤ effective_balance (Some t) user_id) ∧
  (∀ b, t !! user_id = Some b →
     ∃ b', balance out.2 user_id = Some b' ∧
           b - Z.of_nat (ok_count out.1) ≤ b' ≤ b) ∧
  (∀ contended : list (nat * bool),
     let out' := Contention.run contended (Interleaving.fresh_calls n user_id)
                   (Some t) in
     effective_balance (Some t) user_id - Z.of_nat (ok_count out'.1)
     ≤ effective_balance out'.2 user_id ≤ effective_balance (Some t) user_id).
Proof.
  cbn zeta.
  assert (Hfresh : ok_count (Interleaving.fresh_calls n user_id) = 0%nat).
  { induction n as [| n IHn]; [done |].
    change (Interleaving.fresh_calls (S n) user_id)
      with ((user_id, Interleaving.BeforeInsert)
              :: Interleaving.fresh_calls n user_id).
    by rewrite ok_count_cons, IHn. }
  assert (Hbounds :
    effective_balance (Some t) user_id
      - Z.of_nat (ok_count (Interleaving.run schedule
                              (Interleaving.fresh_calls n user_id) (Some t)).1)
    ≤ effective_balance (Interleaving.run schedule
                           (Interleaving.fresh_calls n user_id) (Some t)).2 user_id
    ≤ effective_balance (Some t) user_id).
  { apply run_charge.
    - apply Forall_replicate. done.
    - apply Forall_replicate. done.
    - rewrite Hfresh. lia. }
  split; [exact Hbounds |]. split.
  - intros b Hb.
    destruct (proj2 (run_isolated schedule
                       (Interleaving.fresh_calls n user_id) (Some t) user_id))
      as [b' Hb']; [by exists b |].
    exists b'. split; [exact Hb' |].
    unfold effective_balance in Hbounds. rewrite Hb' in Hbounds.
    cbn in Hbounds. rewrite Hb in Hbounds. exact Hbounds.
  - intros contended. apply contention_run_charge.
    + apply Forall_replicate. done.
    + apply Forall_replicate. done.
    + rewrite Hfresh. lia.
Qed.

Lemma interleaving_never_overcharges_witness :
  ({["u1" := 1]} : table) !! "u1" = Some 1 ∧
  ∃ b', balance (Interleaving.run [0; 1; 0; 1; 0; 1]%nat
                   (Interleaving.fresh_calls 2 "u1") (ledger_with 1)).2 "u1"
        = Some b' ∧
        1 - Z.of_nat (ok_count (Interleaving.run [0; 1; 0; 1; 0; 1]%nat
                        (Interleaving.fresh_calls 2 "u1") (ledger_with 1)).1)
        ≤ b' ≤ 1.
Proof.
  assert (Hb : ({["u1" := 1]} : table) !! "u1" = Some 1) by reflexivity.
  split; [exact Hb |].
  exact (proj1 (proj2 (interleaving_never_overcharges [0; 1; 0; 1; 0; 1]%nat 2
                         "u1" {["u1" := 1]})) 1 Hb).
Defined.

(** * Further properties of the routes *)

(** X9: a request without [X-User-Id], or with an empty one, is answered
    422 [Missing required user ID] and the database is left alone: on both
    routes of [src/app/server.py] once the API key is accepted, on
    [GET /credits] of [src/server.py], and on its [POST /analyze/image] once
    the body carries both fields. *)
Theorem missing_identity client api_key (req : request) (db : database) :
  truthy_str (x_user_id req) = false →
  (truthy_str (x_api_key req) = true → x_api_key req = api_key →
   App.credits_left api_key req db = (missing_user_id, db) ∧
   App.analyze_image client api_key req db = (missing_user_id, db)) ∧
  Standalone.credits_left req db = (missing_user_id, db) ∧
  (∀ lang image, payload req lang image →
     Standalone.analyze_image client req db = (missing_user_id, db)).
Proof.
  intros Hid. split; [| split].
  - intros Hkey Heq.
    unfold App.credits_left, App.analyze_image, App.require_api_key_and_user_id.
    rewrite Hkey, (bool_decide_eq_false_2 _ (λ H, H Heq)). cbn [negb orb].
    destruct (x_user_id req) as [u|]; [| done]. by rewrite Hid.
  - unfold Standalone.credits_left, Standalone.credits_left_view.
    destruct (x_user_id req) as [u|]; [| done]. by rewrite Hid.
  - intros lang image (Hdata & Hlang & Himage & Htl & Hti).
    unfold Standalone.analyze_image, Standalone.analyze_image_view, dispatch.
    rewrite Hdata, Hlang, Himage. cbn [negb lift bind]. rewrite Htl, Hti.
    cbn [negb orb]. destruct (x_user_id req) as [u|]; [| done]. by rewrite Hid.
Qed.

Lemma missing_identity_witness :
  truthy_str (x_user_id anonymous_request) = false ∧
  truthy_str (x_api_key anonymous_request) = true ∧
  x_api_key anonymous_request = sample_key ∧
  App.credits_left sample_key anonymous_request (ledger_with 3)
  = (missing_user_id, ledger_with 3) ∧
  payload anonymous_request (JStr "en") (JStr "aGVsbG8=") ∧
  Standalone.analyze_image describing_client anonymous_request (ledger_with 3)
  = (missing_user_id, ledger_with 3).
Proof.
  assert (Hid : truthy_str (x_user_id anonymous_request) = false) by reflexivity.
  assert (Hpay : payload anonymous_request (JStr "en") (JStr "aGVsbG8="))
    by (repeat split).
  destruct (missing_identity describing_client sample_key anonymous_request
              (ledger_with 3) Hid) as (Happ & _ & Hplain).
  split; [exact Hid |]. split; [reflexivity |]. split; [reflexivity |].
  split; [exact (proj1 (Happ eq_refl eq_refl)) |].
  split; [exact Hpay | exact (Hplain _ _ Hpay)].
Defined.

(** X10: when [API_KEY] is not set, or set to the empty string, no header
    is accepted: both routes of [src/app/server.py] answer every request with
    422 [Invalid API key] and leave the database alone. *)
Theorem unset_api_key_rejects_all client api_key (req : request) (db : database) :
  truthy_str api_key = false →
  App.credits_left api_key req db = ((error_body "Invalid API key", 422), db) ∧
  App.analyze_image client api_key req db
  = ((error_body "Invalid API key", 422), db).
Proof.
  intros Hunset.
  assert (Hcheck : negb (truthy_str (x_api_key req))
                   || bool_decide (x_api_key req ≠ api_key) = true).
  { destruct (truthy_str (x_api_key req)) eqn:Hkey; [| done]. cbn.
    apply bool_decide_eq_true_2. intros Heq. congruence. }
  unfold App.credits_left, App.analyze_image, App.require_api_key_and_user_id.
  by rewrite Hcheck.
Qed.

Lemma unset_api_key_rejects_all_witness :
  truthy_str None = false ∧
  App.credits_left None sample_request (ledger_with 3)
  = ((error_body "Invalid API key", 422), ledger_with 3) ∧
  App.analyze_image describing_client None sample_request (ledger_with 3)
  = ((error_body "Invalid API key", 422), ledger_with 3).
Proof.
  split; [reflexivity |].
  exact (unset_api_key_rejects_all describing_client None sample_request
           (ledger_with 3) eq_refl).
Defined.

Lemma app_rejection_any_client client1 client2 api_key req db :
  (∀ user_id lang image,
     ¬ (authorized api_key req user_id ∧ payload req lang image)) →
  App.analyze_image client1 api_key req db
  = App.analyze_image client2 api_key req db.
Proof.
  intros Hnone.
  unfold App.analyze_image, App.require_api_key_and_user_id.
  destruct (negb (truthy_str (x_api_key req))
            || bool_decide (x_api_key req ≠ api_key)) eqn:Hkey; [done |].
  destruct (x_user_id req) as [u|] eqn:Hid; [| done].
  destruct (truthy_str (Some u)) eqn:Hne; [| done]. cbn [negb].
  unfold App.analyze_image_view, dispatch.
  destruct (truthy (request_json req)) eqn:Hdata; [| done]. cbn [negb].
  destruct (get (request_json req) "lang") as [lang|] eqn:Hlang; [| done].
  destruct (get (request_json req) "image") as [image|] eqn:Himage; [| done].
  cbn [lift bind].
  destruct (negb (truthy lang) || negb (truthy image)) eqn:Hfields; [done |].
  apply orb_false_elim in Hkey as [Hk%negb_false_iff Heq%bool_decide_eq_false_1].
  apply orb_false_elim in Hfields as [Htl%negb_false_iff Hti%negb_false_iff].
  destruct (Hnone u lang image). split; [| done].
  split; [done |]. split; [| done].
  destruct (decide (x_api_key req = api_key)); [done | by destruct Heq].
Qed.

Lemma standalone_rejection_any_client client1 client2 req db :
  (∀ user_id lang image,
     ¬ (identified req user_id ∧ payload req lang image)) →
  Standalone.analyze_image client1 req db
  = Standalone.analyze_image client2 req db.
Proof.
  intros Hnone.
  unfold Standalone.analyze_image, Standalone.analyze_image_view, dispatch.
  destruct (truthy (request_json req)) eqn:Hdata; [| done]. cbn [negb].
  destruct (get (request_json req) "lang") as [lang|] eqn:Hlang; [| done].
  destruct (get (request_json req) "image") as [image|] eqn:Himage; [| done].
  cbn [lift bind].
  destruct (negb (truthy lang) || negb (truthy image)) eqn:Hfields; [done |].
  destruct (x_user_id req) as [u|] eqn:Hid; [| done].
  destruct (truthy_str (Some u)) eqn:Hne; [| done]. cbn [negb].
  apply orb_false_elim in Hfields as [Htl%negb_false_iff Hti%negb_false_iff].
  by destruct (Hnone u lang image).
Qed.

(** X11: the collaborator is consulted only after the gate has admitted
    the request.  When [require_credits] raises for the user named in the
    request, the answer and the database are the same whatever the
    collaborator would have said. *)
Theorem collaborator_follows_admission client1 client2 api_key
    (req : request) (db : database) :
  (∀ user_id, x_user_id req = Some user_id →
     ∃ e, (require_credits user_id db).1 = Raise e) →
  App.analyze_image client1 api_key req db
  = App.analyze_image client2 api_key req db ∧
  Standalone.analyze_image client1 req db
  = Standalone.analyze_image client2 req db.
Proof.
  intros Hraise. split.
  - destruct (app_analyze_image_cases client1 api_key req db)
      as [(u & l & i & Hauth & Hpay & ->) | [Hnone _]];
      [| by apply app_rejection_any_client].
    rewrite (app_analyze_image_valid client2 _ _ _ _ _ _ Hauth Hpay).
    destruct (Hraise u (proj1 (authorized_identified _ _ _ Hauth))) as [e He].
    unfold gated_response.
    destruct (require_credits u db) as [[[]|e'] db']; [discriminate | done].
  - destruct (standalone_analyze_image_cases client1 req db)
      as [(u & l & i & Hid & Hpay & ->) | [Hnone _]];
      [| by apply standalone_rejection_any_client].
    rewrite (standalone_analyze_image_valid client2 _ _ _ _ _ Hid Hpay).
    destruct (Hraise u (proj1 Hid)) as [e He].
    unfold gated_response.
    destruct (require_credits u db) as [[[]|e'] db']; [discriminate | done].
Qed.

Lemma collaborator_follows_admission_witness :
  (∀ user_id, x_user_id sample_request = Some user_id →
     ∃ e, (require_credits user_id (ledger_with 0)).1 = Raise e) ∧
  App.analyze_image describing_client sample_key sample_request (ledger_with 0)
  = App.analyze_image failing_client sample_key sample_request (ledger_with 0).
Proof.
  assert (Hraise : ∀ user_id, x_user_id sample_request = Some user_id →
            ∃ e, (require_credits user_id (ledger_with 0)).1 = Raise e).
  { intros u [= <-]. by exists no_more_credits. }
  split; [exact Hraise |].
  exact (proj1 (collaborator_follows_admission describing_client failing_client
                  sample_key sample_request (ledger_with 0) Hraise)).
Defined.

Lemma gated_response_debit described user_id (t : table) b :
  t !! user_id = Some b → 1 ≤ b →
  gated_response described user_id (Some t)
  = (match described with
     | Return r => r
     | Raise e => collaborator_failure e
     end, Some (<[user_id := b - 1]> t)).
Proof.
  intros Hb Hpos. unfold gated_response.
  by rewrite (require_credits_positive _ _ b Hb Hpos).
Qed.

(** X12: when the completion is cut at the length limit
    ([LengthFinishReasonError]) the admitted request is answered 422
    [Image too big], in both servers, and the credit taken for it stays
    taken. *)
Theorem overlong_completion client api_key (req : request) (user_id : string)
    (lang image : json_value) (t : table) (b : Z) (msg : string) :
  authorized api_key req user_id → payload req lang image →
  t !! user_id = Some b → 1 ≤ b →
  process_image_recognition client lang image
  = Raise (LengthFinishReasonError msg) →
  App.analyze_image client api_key req (Some t)
  = ((error_body "Image too big", 422), Some (<[user_id := b - 1]> t)) ∧
  Standalone.analyze_image client req (Some t)
  = ((error_body "Image too big", 422), Some (<[user_id := b - 1]> t)).
Proof.
  intros Hauth Hpay Hb Hpos Hlen. split.
  - rewrite (app_analyze_image_valid _ _ _ _ _ _ _ Hauth Hpay).
    rewrite (gated_response_debit _ _ _ _ Hb Hpos), app_describe_eq, Hlen.
    reflexivity.
  - rewrite (standalone_analyze_image_valid _ _ _ _ _ _
               (authorized_identified _ _ _ Hauth) Hpay).
    rewrite (gated_response_debit _ _ _ _ Hb Hpos), standalone_describe_eq, Hlen.
    reflexivity.
Qed.

Lemma overlong_completion_witness :
  authorized sample_key sample_request "u1" ∧
  payload sample_request (JStr "en") (JStr "aGVsbG8=") ∧
  ({["u1" := 5]} : table) !! "u1" = Some 5 ∧ 1 ≤ 5 ∧
  App.analyze_image overlong_client sample_key sample_request (ledger_with 5)
  = ((error_body "Image too big", 422), Some (<["u1" := 5 - 1]> {["u1" := 5]})).
Proof.
  assert (Hb : ({["u1" := 5]} : table) !! "u1" = Some 5) by reflexivity.
  assert (Hpos : 1 ≤ 5) by lia.
  split; [exact sample_request_authorized |].
  split; [exact sample_request_payload |].
  split; [exact Hb |]. split; [exact Hpos |].
  exact (proj1 (overlong_completion overlong_client sample_key sample_request
                  "u1" (JStr "en") (JStr "aGVsbG8=") {["u1" := 5]} 5 _
                  sample_request_authorized sample_request_payload Hb Hpos
                  eq_refl)).
Defined.

(** X13: when the collaborator's message has neither a parsed result nor
    a refusal (or an empty refusal), the admitted request is answered 422
    [Image cannot be identified], in both servers, and the credit taken for
    it stays taken. *)
Theorem unidentified_image client api_key (req : request) (user_id : string)
    (lang image : json_value) (t : table) (b : Z) (m : message) :
  authorized api_key req user_id → payload req lang image →
  t !! user_id = Some b → 1 ≤ b →
  process_image_recognition client lang image = Return m →
  parsed m = None → truthy_str (refusal m) = false →
  App.analyze_image client api_key req (Some t)
  = ((error_body "Image cannot be identified", 422),
     Some (<[user_id := b - 1]> t)) ∧
  Standalone.analyze_image client req (Some t)
  = ((error_body "Image cannot be identified", 422),
     Some (<[user_id := b - 1]> t)).
Proof.
  intros Hauth Hpay Hb Hpos Hm Hparsed Hrefusal. split.
  - rewrite (app_analyze_image_valid _ _ _ _ _ _ _ Hauth Hpay).
    rewrite (gated_response_debit _ _ _ _ Hb Hpos), app_describe_eq, Hm.
    cbn. by rewrite Hparsed, Hrefusal.
  - rewrite (standalone_analyze_image_valid _ _ _ _ _ _
               (authorized_identified _ _ _ Hauth) Hpay).
    rewrite (gated_response_debit _ _ _ _ Hb Hpos), standalone_describe_eq, Hm.
    cbn. by rewrite Hparsed, Hrefusal.
Qed.

Lemma unidentified_image_witness :
  authorized sample_key sample_request "u1" ∧
  payload sample_request (JStr "en") (JStr "aGVsbG8=") ∧
  ({["u1" := 5]} : table) !! "u1" = Some 5 ∧ 1 ≤ 5 ∧
  App.analyze_image silent_client sample_key sample_request (ledger_with 5)
  = ((error_body "Image cannot be identified", 422),
     Some (<["u1" := 5 - 1]> {["u1" := 5]})).
Proof.
  assert (Hb : ({["u1" := 5]} : table) !! "u1" = Some 5) by reflexivity.
  assert (Hpos : 1 ≤ 5) by lia.
  split; [exact sample_request_authorized |].
  split; [exact sample_request_payload |].
  split; [exact Hb |]. split; [exact Hpos |].
  exact (proj1 (unidentified_image silent_client sample_key sample_request
                  "u1" (JStr "en") (JStr "aGVsbG8=") {["u1" := 5]} 5
                  {| parsed := None; refusal := None |}
                  sample_request_authorized sample_request_payload Hb Hpos
                  eq_refl eq_refl eq_refl)).
Defined.

(** X14: a JSON body that is true in Python's sense but is not an object
    (a list, a string, a number, [true]) makes [data.get] raise; the
    exception leaves the view, the 500 handler answers
    [Internal server error], and the database is left alone. *)
Theorem non_object_body client api_key (req : request) (db : database) :
  truthy (request_json req) = true → is_dict (request_json req) = false →
  (∀ user_id, authorized api_key req user_id →
     App.analyze_image client api_key req db
     = ((error_body "Internal server error", 500), db)) ∧
  Standalone.analyze_image client req db
  = ((error_body "Internal server error", 500), db).
Proof.
  intros Hdata Hdict.
  assert (Hget : ∃ e, get (request_json req) "lang" = Raise e).
  { destruct (request_json req); try discriminate; by eexists. }
  destruct Hget as [e Hget]. split.
  - intros u Hauth. unfold App.analyze_image.
    rewrite (decorator_passes _ _ _ _ Hauth).
    unfold App.analyze_image_view, dispatch. by rewrite Hdata, Hget.
  - unfold Standalone.analyze_image, Standalone.analyze_image_view, dispatch.
    by rewrite Hdata, Hget.
Qed.

Lemma non_object_body_witness :
  truthy (request_json list_request) = true ∧
  is_dict (request_json list_request) = false ∧
  authorized sample_key list_request "u1" ∧
  App.analyze_image describing_client sample_key list_request (ledger_with 5)
  = ((error_body "Internal server error", 500), ledger_with 5) ∧
  Standalone.analyze_image describing_client list_request (ledger_with 5)
  = ((error_body "Internal server error", 500), ledger_with 5).
Proof.
  assert (Hauth : authorized sample_key list_request "u1") by (repeat split).
  destruct (non_object_body describing_client sample_key list_request
              (ledger_with 5) eq_refl eq_refl) as [Happ Hplain].
  split; [reflexivity |]. split; [reflexivity |]. split; [exact Hauth |].
  split; [exact (Happ "u1" Hauth) | exact Hplain].
Defined.

Lemma app_describe_status client lang image r :
  App.describe client lang image = Return r → r.2 = 422.
Proof.
  rewrite app_describe_eq. unfold result_bind.
  destruct (process_image_recognition client lang image) as [m | e]; [| done].
  destruct (parsed m); [done |].
  by destruct (truthy_str (refusal m)); intros [= <-].
Qed.

Lemma standalone_describe_status client lang image r :
  Standalone.describe client lang image = Return r →
  (r.2 = 200 ∧ ∃ p, describes client lang image p ∧
     r.1 = jsonify [("name", JStr (name p)); ("description", JStr (description p));
                    ("funFacts", JArr (JStr <$> fun_facts p))]) ∨
  r.2 = 422.
Proof.
  rewrite standalone_describe_eq. unfold result_bind, describes.
  destruct (process_image_recognition client lang image) as [m | e]; [| done].
  destruct (parsed m) as [p|] eqn:Hp.
  - intros [= <-]. left. split; [done |]. exists p. split; [| done]. by exists m.
  - by destruct (truthy_str (refusal m)); intros [= <-]; right.
Qed.

Lemma gate_failure_status e :
  (gate_failure e).2 = 402 ∨ (gate_failure e).2 = 500.
Proof. unfold gate_failure. destruct (is_value_error e); auto. Qed.

Lemma collaborator_failure_status e :
  (collaborator_failure e).2 = 422 ∨ (collaborator_failure e).2 = 500.
Proof. unfold collaborator_failure. destruct (is_length_finish e); auto. Qed.

(** The status codes of the routes on decoded bodies.  [POST /analyze/image] of
    [src/app/server.py] answers 402, 422 or 500 and never 200; that of
    [src/server.py] answers 200, 402, 422 or 500; both [GET /credits] answer
    200, 422 or 500. *)
Lemma decoded_status_codes client api_key (req : request) (db : database) :
  ((App.analyze_image client api_key req db).1.2 = 402 ∨
   (App.analyze_image client api_key req db).1.2 = 422 ∨
   (App.analyze_image client api_key req db).1.2 = 500) ∧
  ((Standalone.analyze_image client req db).1.2 = 200 ∨
   (Standalone.analyze_image client req db).1.2 = 402 ∨
   (Standalone.analyze_image client req db).1.2 = 422 ∨
   (Standalone.analyze_image client req db).1.2 = 500) ∧
  ((App.credits_left api_key req db).1.2 = 200 ∨
   (App.credits_left api_key req db).1.2 = 422 ∨
   (App.credits_left api_key req db).1.2 = 500) ∧
  ((Standalone.credits_left req db).1.2 = 200 ∨
   (Standalone.credits_left req db).1.2 = 422 ∨
   (Standalone.credits_left req db).1.2 = 500).
Proof.
  split; [| split; [| split]].
  - destruct (app_analyze_image_cases client api_key req db)
      as [(u & l & i & _ & _ & ->) | [_ [_ (msg & st & -> & [-> | ->])]]]; auto.
    unfold gated_response.
    destruct (require_credits u db) as [[[]|e] db']; cbn [fst snd].
    + destruct (App.describe client l i) as [r|e] eqn:Hdesc.
      * rewrite (app_describe_status _ _ _ _ Hdesc). auto.
      * destruct (collaborator_failure_status e) as [-> | ->]; auto.
    + destruct (gate_failure_status e) as [-> | ->]; auto.
  - destruct (standalone_analyze_image_cases client req db)
      as [(u & l & i & _ & _ & ->) | [_ [_ (msg & st & -> & [-> | ->])]]]; auto.
    unfold gated_response.
    destruct (require_credits u db) as [[[]|e] db']; cbn [fst snd].
    + destruct (Standalone.describe client l i) as [r|e] eqn:Hdesc.
      * destruct (standalone_describe_status _ _ _ _ Hdesc) as [[-> _] | ->]; auto.
      * destruct (collaborator_failure_status e) as [-> | ->]; auto.
    + destruct (gate_failure_status e) as [-> | ->]; auto.
  - unfold App.credits_left, App.require_api_key_and_user_id.
    destruct (_ || _); [auto |].
    destruct (x_user_id req) as [u|]; [| auto].
    destruct (negb _); [auto |].
    unfold dispatch, App.credits_left_view, bind.
    rewrite get_user_credits_reads. destruct db; cbn; auto.
  - unfold Standalone.credits_left, Standalone.credits_left_view.
    destruct (x_user_id req) as [u|]; [| auto].
    destruct (negb _); [auto |].
    unfold dispatch, bind. rewrite get_user_credits_reads. destruct db; cbn; auto.
Qed.

(** X16: [POST /analyze/image] of [src/server.py] answers 200 exactly
    when the request is identified, its body carries both fields, the gate
    admits it and the collaborator returns a parsed result; the body is then
    the object of [name], [description] and [funFacts] of that result. *)
Theorem standalone_success client (req : request) (db : database) :
  ((Standalone.analyze_image client req db).1.2 = 200 →
   ∃ user_id lang image p,
     identified req user_id ∧ payload req lang image ∧
     (require_credits user_id db).1 = Return tt ∧
     describes client lang image p ∧
     (Standalone.analyze_image client req db).1
     = (jsonify [("name", JStr (name p)); ("description", JStr (description p));
                 ("funFacts", JArr (JStr <$> fun_facts p))], 200)) ∧
  (∀ user_id lang image p,
     identified req user_id → payload req lang image →
     (require_credits user_id db).1 = Return tt →
     describes client lang image p →
     (Standalone.analyze_image client req db).1.2 = 200).
Proof.
  split.
  - destruct (standalone_analyze_image_cases client req db)
      as [(u & l & i & Hid & Hpay & Heq) | [_ [_ (msg & st & -> & [-> | ->])]]];
      [| done | done].
    rewrite Heq. unfold gated_response.
    destruct (require_credits u db) as [[[]|e] db'] eqn:Hreq; cbn [fst snd].
    + destruct (Standalone.describe client l i) as [r|e] eqn:Hdesc.
      * destruct (standalone_describe_status _ _ _ _ Hdesc)
          as [[Hst (p & Hp & Hbody)] | ->]; [| done].
        intros _. exists u, l, i, p. split; [done |]. split; [done |].
        split; [by rewrite Hreq |]. split; [done |].
        destruct r as [body st]. cbn in *. by subst.
      * by destruct (collaborator_failure_status e) as [-> | ->].
    + by destruct (gate_failure_status e) as [-> | ->].
  - intros u l i p Hid Hpay Hadm Hp.
    by rewrite (standalone_parsed_result _ _ _ _ _ _ _ Hid Hpay Hadm Hp).
Qed.

Lemma standalone_success_witness :
  identified sample_request "u1" ∧
  payload sample_request (JStr "en") (JStr "aGVsbG8=") ∧
  (require_credits "u1" (ledger_with 5)).1 = Return tt ∧
  describes describing_client (JStr "en") (JStr "aGVsbG8=") sample_picture ∧
  (Standalone.analyze_image describing_client sample_request (ledger_with 5)).1.2
  = 200 ∧
  ∃ user_id lang image p,
    identified sample_request user_id ∧ payload sample_request lang image ∧
    (require_credits user_id (ledger_with 5)).1 = Return tt ∧
    describes describing_client lang image p ∧
    (Standalone.analyze_image describing_client sample_request (ledger_with 5)).1
    = (jsonify [("name", JStr (name p)); ("description", JStr (description p));
                ("funFacts", JArr (JStr <$> fun_facts p))], 200).
Proof.
  assert (Hid : identified sample_request "u1") by (split; reflexivity).
  assert (Hadm : (require_credits "u1" (ledger_with 5)).1 = Return tt)
    by reflexivity.
  assert (Hp : describes describing_client (JStr "en") (JStr "aGVsbG8=")
                 sample_picture).
  { exists {| parsed := Some sample_picture; refusal := None |}. by split. }
  destruct (standalone_success describing_client sample_request (ledger_with 5))
    as [Honly Hif].
  pose proof (Hif "u1" _ _ _ Hid sample_request_payload Hadm Hp) as Hst.
  split; [exact Hid |]. split; [exact sample_request_payload |].
  split; [exact Hadm |]. split; [exact Hp |]. split; [exact Hst |].
  exact (Honly Hst).
Defined.

Lemma require_credits_effect user_id db other :
  balance (require_credits user_id db).2 other = balance db other ∨
  (other = user_id ∧
   ((∃ b, balance db other = Some b ∧ 1 ≤ b ∧
          balance (require_credits user_id db).2 other = Some (b - 1)) ∨
    (balance db other = None ∧
     balance (require_credits user_id db).2 other = Some 9))).
Proof.
  destruct (decide (other = user_id)) as [-> | Hne];
    [| left; by apply require_credits_other].
  destruct (require_credits_cases user_id db)
    as [[-> ->] | [(t & -> & Habs & ->) | [(t & b & -> & Hb & Hpos & ->)
       | (t & b & -> & Hb & Hlow & ->)]]]; cbn [snd balance]; auto.
  - right. split; [done |]. right. split; [done | apply lookup_insert_eq].
  - right. split; [done |]. left. exists b.
    split; [done |]. split; [done | apply lookup_insert_eq].
Qed.

(** X17: one request to [POST /analyze/image] changes at most the balance
    of the user named in [X-User-Id], and by exactly one credit: a stored
    balance [b >= 1] becomes [b - 1], and a user without an entry gets one
    with 9.  Every other balance is as before. *)
Theorem request_costs_one_credit client api_key (req : request)
    (db : database) (other : string) :
  (balance (App.analyze_image client api_key req db).2 other = balance db other ∨
   (x_user_id req = Some other ∧
    ((∃ b, balance db other = Some b ∧ 1 ≤ b ∧
           balance (App.analyze_image client api_key req db).2 other
           = Some (b - 1)) ∨
     (balance db other = None ∧
      balance (App.analyze_image client api_key req db).2 other = Some 9)))) ∧
  (balance (Standalone.analyze_image client req db).2 other = balance db other ∨
   (x_user_id req = Some other ∧
    ((∃ b, balance db other = Some b ∧ 1 ≤ b ∧
           balance (Standalone.analyze_image client req db).2 other
           = Some (b - 1)) ∨
     (balance db other = None ∧
      balance (Standalone.analyze_image client req db).2 other = Some 9)))).
Proof.
  split.
  - destruct (app_analyze_image_writes client api_key req db)
      as [-> | (u & Hu & ->)]; [by left |].
    destruct (require_credits_effect u db other) as [Hsame | [-> Hdebit]];
      [by left | right; by split].
  - destruct (standalone_analyze_image_writes client req db)
      as [-> | (u & Hu & ->)]; [by left |].
    destruct (require_credits_effect u db other) as [Hsame | [-> Hdebit]];
      [by left | right; by split].
Qed.

(** * Interleaved calls that the balance covers *)

Lemma ok_count_le (cs : Interleaving.calls) : (ok_count cs ≤ length cs)%nat.
Proof.
  induction cs as [| c cs IH]; [done |]. rewrite ok_count_cons. cbn [length].
  assert (ok_count [c] ≤ 1)%nat; [| lia].
  unfold ok_count, Interleaving.outcomes, count_ok. cbn.
  destruct (Interleaving.outcome c) as [a|]; cbn; [| lia].
  destruct (decide (a = Ok)); cbn; lia.
Qed.

Lemma ok_count_running (cs : Interleaving.calls) :
  ∀ i c, cs !! i = Some c → Interleaving.outcome c = None →
    (ok_count cs < length cs)%nat.
Proof.
  induction cs as [| x cs IH]; intros i c Hi Hc; [done |].
  rewrite ok_count_cons. cbn [length]. destruct i as [| i]; cbn in Hi.
  - injection Hi as ->. pose proof (ok_count_le cs).
    assert (ok_count [c] = 0)%nat; [| lia].
    unfold ok_count, Interleaving.outcomes. cbn. by rewrite Hc.
  - specialize (IH i c Hi Hc). pose proof (ok_count_le [x]). cbn in *. lia.
Qed.

Lemma step_running_or_ok user_id p (t : table) b :
  t !! user_id = Some b →
  (Interleaving.outcome (user_id, p) = None → 1 ≤ b) →
  running_or_ok (user_id, p) →
  running_or_ok (user_id, (Interleaving.step user_id p (Some t)).1).
Proof.
  intros Hb Hcover Hp. destruct p as [| | c | r]; cbn [Interleaving.step].
  - cbn. rewrite Hb. by left.
  - rewrite get_user_credits_reads, Hb.
    destruct (Z.ltb_spec b 1) as [Hlow | _]; [| by left].
    specialize (Hcover eq_refl). lia.
  - cbn. by right.
  - done.
Qed.

Lemma run_running_or_ok user_id b0 schedule :
  ∀ (cs : Interleaving.calls) (t : table),
    Z.of_nat (length cs) ≤ b0 →
    Forall (λ c, c.1 = user_id) cs →
    Forall (read_within (b0 - Z.of_nat (ok_count cs)) b0) cs →
    Forall running_or_ok cs →
    (∃ b, t !! user_id = Some b ∧ b0 - Z.of_nat (ok_count cs) ≤ b ≤ b0) →
    Forall running_or_ok (Interleaving.run schedule cs (Some t)).1.
Proof.
  induction schedule as [| i rest IH]; intros cs t Hlen Hu Hread Hnd Hbal; [done |].
  cbn [Interleaving.run].
  destruct (cs !! i) as [[u p]|] eqn:Hi; [| by apply IH].
  pose proof (Forall_lookup_1 _ _ _ _ Hu Hi) as Hui. cbn in Hui. subst u.
  pose proof (Forall_lookup_1 _ _ _ _ Hread Hi) as Hp.
  pose proof (Forall_lookup_1 _ _ _ _ Hnd Hi) as Hpnd.
  destruct Hbal as (b & Hb & Hbounds).
  assert (Heff : b0 - Z.of_nat (ok_count cs)
                 ≤ effective_balance (Some t) user_id ≤ b0).
  { unfold effective_balance. cbn. by rewrite Hb. }
  pose proof (step_charge user_id b0 _ p t Hp Heff) as Hstep. cbn zeta in Hstep.
  assert (Hcover : Interleaving.outcome (user_id, p) = None → 1 ≤ b).
  { intros Hrun. pose proof (ok_count_running cs i _ Hi Hrun). lia. }
  pose proof (step_running_or_ok user_id p t b Hb Hcover Hpnd) as Hp'nd.
  pose proof (step_keeps_entry user_id p (Some t) user_id) as Hkeep.
  destruct (Interleaving.step user_id p (Some t)) as [p' db'].
  cbn [fst snd] in *. destruct Hstep as (Hd & [t' ->] & Hp' & Hbal').
  destruct Hkeep as [b' Hb']; [by exists b |]. cbn in Hb'.
  pose proof (ok_count_insert cs i (user_id, p) (user_id, p') Hi) as Hcount.
  apply IH.
  - by rewrite length_insert.
  - by apply Forall_insert.
  - apply Forall_insert.
    + eapply Forall_impl; [exact Hread |]. intros c.
      apply read_within_weaken. lia.
    + eapply read_within_weaken; [| exact Hp']. lia.
  - by apply Forall_insert.
  - exists b'. split; [done |]. unfold effective_balance, balance in Hbal'.
    rewrite Hb' in Hbal'. cbn [default from_option id] in Hbal'. lia.
Qed.

(** Without lock faults, calls that the balance covers all return. *)
Lemma lock_free_calls_are_ok (schedule : list nat) (n : nat)
    (user_id : string) (t : table) (b : Z) :
  t !! user_id = Some b → Z.of_nat n ≤ b →
  Forall running_or_ok
    (Interleaving.run schedule (Interleaving.fresh_calls n user_id) (Some t)).1 ∧
  Forall (λ a, a = Ok)
    (Interleaving.outcomes
       (Interleaving.run schedule (Interleaving.fresh_calls n user_id)
          (Some t)).1).
Proof.
  intros Hb Hn.
  assert (Hfresh : ok_count (Interleaving.fresh_calls n user_id) = 0%nat).
  { clear Hn. induction n as [| n IHn]; [done |].
    change (Interleaving.fresh_calls (S n) user_id)
      with ((user_id, Interleaving.BeforeInsert)
              :: Interleaving.fresh_calls n user_id).
    by rewrite ok_count_cons, IHn. }
  assert (Hnd : Forall running_or_ok
            (Interleaving.run schedule (Interleaving.fresh_calls n user_id)
               (Some t)).1).
  { apply (run_running_or_ok user_id b).
    - unfold Interleaving.fresh_calls. by rewrite length_replicate.
    - by apply Forall_replicate.
    - by apply Forall_replicate.
    - apply Forall_replicate. by left.
    - exists b. rewrite Hfresh. split; [done | lia]. }
  split; [exact Hnd |].
  induction Hnd as [| c cs [Hc | Hc] _ IHnd]; [constructor | |];
    unfold Interleaving.outcomes in *; cbn; rewrite Hc;
    [exact IHnd | by constructor].
Qed.

(** * Calls that may find the database locked *)

(** Without lock faults the two models of a run agree. *)
Lemma contention_run_lock_free (schedule : list (nat * bool)) :
  ∀ (cs : Interleaving.calls) db,
    lock_free schedule →
    Contention.run schedule cs db = Interleaving.run schedule.*1 cs db.
Proof.
  induction schedule as [| [i locked] rest IH]; intros cs db Hfree; [done |].
  apply Forall_cons in Hfree as [Hi Hrest]. cbn in Hi. subst locked.
  cbn [Contention.run Interleaving.run fmap list_fmap fst].
  destruct (cs !! i) as [[u p]|]; [| by apply IH].
  unfold Contention.step. destruct (Interleaving.step u p db) as [p' db'].
  by apply IH.
Qed.

Lemma contention_step_keeps_entry locked user_id p db other :
  is_Some (balance db other) →
  is_Some (balance (Contention.step locked user_id p db).2 other).
Proof.
  destruct locked; [| apply step_keeps_entry].
  unfold Contention.step. by destruct p.
Qed.

Lemma contention_step_not_denied locked user_id p (t : table) b :
  t !! user_id = Some b →
  (Interleaving.outcome (user_id, p) = None → 1 ≤ b) →
  not_denied (user_id, p) →
  not_denied (user_id, (Contention.step locked user_id p (Some t)).1).
Proof.
  intros Hb Hcover Hp. unfold Contention.step. destruct locked.
  - destruct p as [| | c | r]; cbn; [by right; right .. | done].
  - destruct p as [| | c | r]; cbn [Interleaving.step].
    + cbn. rewrite Hb. by left.
    + rewrite get_user_credits_reads, Hb.
      destruct (Z.ltb_spec b 1) as [Hlow | _]; [| by left].
      specialize (Hcover eq_refl). lia.
    + cbn. right. by left.
    + done.
Qed.

Lemma contention_run_not_denied user_id b0 schedule :
  ∀ (cs : Interleaving.calls) (t : table),
    Z.of_nat (length cs) ≤ b0 →
    Forall (λ c, c.1 = user_id) cs →
    Forall (read_within (b0 - Z.of_nat (ok_count cs)) b0) cs →
    Forall not_denied cs →
    (∃ b, t !! user_id = Some b ∧ b0 - Z.of_nat (ok_count cs) ≤ b ≤ b0) →
    Forall not_denied (Contention.run schedule cs (Some t)).1.
Proof.
  induction schedule as [| [i locked] rest IH];
    intros cs t Hlen Hu Hread Hnd Hbal; [done |].
  cbn [Contention.run].
  destruct (cs !! i) as [[u p]|] eqn:Hi; [| by apply IH].
  pose proof (Forall_lookup_1 _ _ _ _ Hu Hi) as Hui. cbn in Hui. subst u.
  pose proof (Forall_lookup_1 _ _ _ _ Hread Hi) as Hp.
  pose proof (Forall_lookup_1 _ _ _ _ Hnd Hi) as Hpnd.
  destruct Hbal as (b & Hb & Hbounds).
  assert (Heff : b0 - Z.of_nat (ok_count cs)
                 ≤ effective_balance (Some t) user_id ≤ b0).
  { unfold effective_balance. cbn. by rewrite Hb. }
  pose proof (contention_step_charge locked user_id b0 _ p t Hp Heff) as Hstep.
  cbn zeta in Hstep.
  assert (Hcover : Interleaving.outcome (user_id, p) = None → 1 ≤ b).
  { intros Hrun. pose proof (ok_count_running cs i _ Hi Hrun). lia. }
  pose proof (contention_step_not_denied locked user_id p t b Hb Hcover Hpnd)
    as Hp'nd.
  pose proof (contention_step_keeps_entry locked user_id p (Some t) user_id)
    as Hkeep.
  destruct (Contention.step locked user_id p (Some t)) as [p' db'].
  cbn [fst snd] in *. destruct Hstep as (Hd & [t' ->] & Hp' & Hbal').
  destruct Hkeep as [b' Hb']; [by exists b |]. cbn in Hb'.
  pose proof (ok_count_insert cs i (user_id, p) (user_id, p') Hi) as Hcount.
  apply IH.
  - by rewrite length_insert.
  - by apply Forall_insert.
  - apply Forall_insert.
    + eapply Forall_impl; [exact Hread |]. intros c.
      apply read_within_weaken. lia.
    + eapply read_within_weaken; [| exact Hp']. lia.
  - by apply Forall_insert.
  - exists b'. split; [done |]. unfold effective_balance, balance in Hbal'.
    rewrite Hb' in Hbal'. cbn [default from_option id] in Hbal'. lia.
Qed.

(** X18: no call that the balance covers is denied.  When the stored
    balance is at least the number of calls in flight for the user, then
    under every schedule, blocks that fail on a locked database included, a
    call that has ended was admitted or ended in a store fault, never in a
    denial; and when no block finds the database locked every call that has
    ended was admitted. *)
Theorem covered_calls_are_not_denied (schedule : list (nat * bool)) (n : nat)
    (user_id : string) (t : table) (b : Z) :
  t !! user_id = Some b → Z.of_nat n ≤ b →
  Forall (λ a, a = Ok ∨ a = StoreError)
    (Interleaving.outcomes
       (Contention.run schedule (Interleaving.fresh_calls n user_id)
          (Some t)).1) ∧
  (lock_free schedule →
   Forall (λ a, a = Ok)
     (Interleaving.outcomes
        (Contention.run schedule (Interleaving.fresh_calls n user_id)
           (Some t)).1)).
Proof.
  intros Hb Hn. split.
  - assert (Hfresh : ok_count (Interleaving.fresh_calls n user_id) = 0%nat).
    { clear Hn. induction n as [| n IHn]; [done |].
      change (Interleaving.fresh_calls (S n) user_id)
        with ((user_id, Interleaving.BeforeInsert)
                :: Interleaving.fresh_calls n user_id).
      by rewrite ok_count_cons, IHn. }
    assert (Hnd : Forall not_denied
              (Contention.run schedule (Interleaving.fresh_calls n user_id)
                 (Some t)).1).
    { apply (contention_run_not_denied user_id b).
      - unfold Interleaving.fresh_calls. by rewrite length_replicate.
      - by apply Forall_replicate.
      - by apply Forall_replicate.
      - apply Forall_replicate. by left.
      - exists b. rewrite Hfresh. split; [done | lia]. }
    induction Hnd as [| c cs [Hc | [Hc | Hc]] _ IHnd]; [constructor | | |];
      unfold Interleaving.outcomes in *; cbn; rewrite Hc;
      [exact IHnd | constructor; [by left | exact IHnd]
       | constructor; [by right | exact IHnd]].
  - intros Hfree. rewrite (contention_run_lock_free _ _ _ Hfree).
    apply (lock_free_calls_are_ok schedule.*1 n user_id t b Hb Hn).
Qed.

Lemma covered_calls_are_not_denied_witness :
  ({["u1" := 2]} : table) !! "u1" = Some 2 ∧ Z.of_nat 2 ≤ 2 ∧
  Forall (λ a, a = Ok ∨ a = StoreError)
    (Interleaving.outcomes
       (Contention.run
          [(0, false); (1, false); (0, true); (1, false); (1, false)]%nat
          (Interleaving.fresh_calls 2 "u1") (ledger_with 2)).1) ∧
  lock_free [(0, false); (1, false); (0, false); (1, false); (0, false);
             (1, false)]%nat ∧
  Forall (λ a, a = Ok)
    (Interleaving.outcomes
       (Contention.run
          [(0, false); (1, false); (0, false); (1, false); (0, false);
           (1, false)]%nat
          (Interleaving.fresh_calls 2 "u1") (ledger_with 2)).1).
Proof.
  assert (Hb : ({["u1" := 2]} : table) !! "u1" = Some 2) by reflexivity.
  assert (Hn : Z.of_nat 2 ≤ 2) by lia.
  assert (Hfree : lock_free [(0, false); (1, false); (0, false); (1, false);
                             (0, false); (1, false)]%nat)
    by (repeat constructor).
  split; [exact Hb |]. split; [exact Hn |].
  split; [exact (proj1 (covered_calls_are_not_denied
                          [(0, false); (1, false); (0, true); (1, false);
                           (1, false)]%nat 2 "u1" {["u1" := 2]} 2 Hb Hn)) |].
  split; [exact Hfree |].
  exact (proj2 (covered_calls_are_not_denied _ 2 "u1" {["u1" := 2]} 2 Hb Hn)
           Hfree).
Defined.

(** * Requests as they arrive *)

Lemma app_serve_decoded client api_key w data db :
  wire_json w = inl data →
  App.serve_analyze_image client api_key w db
  = as_json (App.analyze_image client api_key (decoded w data) db).
Proof.
  intros Hdata.
  unfold App.serve_analyze_image, App.analyze_image,
    App.require_api_key_and_user_id.
  cbn [decoded x_api_key x_user_id]. rewrite Hdata.
  destruct (_ || _); [reflexivity |].
  destruct (wire_user_id w) as [u|]; [| reflexivity].
  destruct (negb _); reflexivity.
Qed.

Lemma app_serve_fault client api_key w fault db :
  wire_json w = inr fault →
  (App.serve_analyze_image client api_key w db).2 = db ∧
  ((∃ msg, (App.serve_analyze_image client api_key w db).1
           = JsonBody (error_body msg, 422)) ∨
   (App.serve_analyze_image client api_key w db).1
   = ErrorPage (fault_status fault)) ∧
  (∀ user_id, wire_authorized api_key w user_id →
     App.serve_analyze_image client api_key w db
     = (ErrorPage (fault_status fault), db)).
Proof.
  intros Hfault. unfold App.serve_analyze_image. rewrite Hfault.
  destruct (negb (truthy_str (wire_api_key w))
            || bool_decide (wire_api_key w ≠ api_key)) eqn:Hkey.
  { split; [done |]. split; [left; by eexists |].
    intros u (Ht & Heq & _). rewrite Ht in Hkey. cbn in Hkey.
    apply bool_decide_eq_true_1 in Hkey. by destruct Hkey. }
  destruct (wire_user_id w) as [u|] eqn:Hid; cycle 1.
  { split; [done |]. split; [left; by eexists |].
    intros u (_ & _ & Hu & _). congruence. }
  destruct (negb (truthy_str (Some u))) eqn:Hne.
  { split; [done |]. split; [left; by eexists |].
    intros u' (_ & _ & Hu & Hne'). assert (u' = u) as -> by congruence.
    rewrite Hne' in Hne. discriminate. }
  split; [done |]. split; [by right | done].
Qed.

Lemma standalone_serve_decoded client w data db :
  wire_json w = inl data →
  Standalone.serve_analyze_image client w db
  = as_json (Standalone.analyze_image client (decoded w data) db).
Proof. intros Hdata. unfold Standalone.serve_analyze_image. by rewrite Hdata. Qed.

Lemma standalone_serve_fault client w fault db :
  wire_json w = inr fault →
  Standalone.serve_analyze_image client w db = (ErrorPage (fault_status fault), db).
Proof. intros Hfault. unfold Standalone.serve_analyze_image. by rewrite Hfault. Qed.

Lemma non_object_body_raises client api_key req db :
  truthy (request_json req) = true → is_dict (request_json req) = false →
  (∀ user_id, authorized api_key req user_id →
     App.analyze_image client api_key req db
     = ((error_body "Internal server error", 500), db)) ∧
  Standalone.analyze_image client req db
  = ((error_body "Internal server error", 500), db).
Proof.
  intros Hdata Hdict.
  assert (Hget : ∃ e, get (request_json req) "lang" = Raise e).
  { destruct (request_json req); try discriminate; by eexists. }
  destruct Hget as [e Hget]. split.
  - intros u Hauth. unfold App.analyze_image.
    rewrite (decorator_passes _ _ _ _ Hauth).
    unfold App.analyze_image_view, dispatch. by rewrite Hdata, Hget.
  - unfold Standalone.analyze_image, Standalone.analyze_image_view, dispatch.
    by rewrite Hdata, Hget.
Qed.

Lemma list_request_carries_no_fields : ¬ carries_fields list_wire_request.
Proof.
  intros (data & lang & image & Hdata & (_ & Hlang & _)).
  injection Hdata as <-. discriminate.
Qed.

(** C5, as stated, fails: a body that is a JSON list carries neither field
    and is answered 500, and a body that is not valid JSON is answered with
    Flask's page for 400; neither is the 422 of the missing-fields outcome. *)
Lemma missing_fields_without_422 :
  ¬ carries_fields list_wire_request ∧
  App.serve_analyze_image describing_client sample_key list_wire_request
    (ledger_with 5)
  = (JsonBody (error_body "Internal server error", 500), ledger_with 5) ∧
  App.serve_analyze_image describing_client sample_key malformed_request
    (ledger_with 5)
  = (ErrorPage 400, ledger_with 5) ∧
  ¬ missing_fields_answered_422.
Proof.
  split; [exact list_request_carries_no_fields |].
  split; [vm_compute; reflexivity |]. split; [vm_compute; reflexivity |].
  intros Hclaim.
  assert (Hauth : wire_authorized sample_key list_wire_request "u1")
    by (repeat split).
  specialize (Hclaim describing_client sample_key list_wire_request
                (ledger_with 5) "u1" Hauth list_request_carries_no_fields).
  vm_compute in Hclaim. discriminate.
Qed.

(** C5, amended: a request to [POST /analyze/image] whose body does not
    carry both the language tag and the image payload never reaches the gate,
    and the database is left as it was, whatever it holds.  The answer is 422
    when the body decodes to an empty value or to an object that lacks one of
    the two ([No data provided] for an empty body, [Missing required fields]
    otherwise, once the headers are accepted); it is 500 when the body decodes
    to a value that is not an object; and it is Flask's page for 400 or 415
    when the body cannot be decoded. *)
Theorem validation_precedes_cost client api_key (w : wire_request)
    (db : database) :
  (¬ carries_fields w →
     (App.serve_analyze_image client api_key w db).2 = db ∧
     (Standalone.serve_analyze_image client w db).2 = db) ∧
  (∀ data, wire_json w = inl data → missing_fields (decoded w data) →
     wire_status (App.serve_analyze_image client api_key w db).1 = 422 ∧
     (∀ user_id, wire_authorized api_key w user_id →
        App.serve_analyze_image client api_key w db
        = (JsonBody (error_body (missing_fields_message (decoded w data)), 422),
           db)) ∧
     Standalone.serve_analyze_image client w db
     = (JsonBody (error_body (missing_fields_message (decoded w data)), 422),
        db)) ∧
  (∀ data, wire_json w = inl data →
     truthy data = true → is_dict data = false →
     (∀ user_id, wire_authorized api_key w user_id →
        App.serve_analyze_image client api_key w db
        = (JsonBody (error_body "Internal server error", 500), db)) ∧
     Standalone.serve_analyze_image client w db
     = (JsonBody (error_body "Internal server error", 500), db)) ∧
  (∀ fault, wire_json w = inr fault →
     (∀ user_id, wire_authorized api_key w user_id →
        App.serve_analyze_image client api_key w db
        = (ErrorPage (fault_status fault), db)) ∧
     Standalone.serve_analyze_image client w db
     = (ErrorPage (fault_status fault), db)).
Proof.
  split; [| split; [| split]].
  - intros Hnone. destruct (wire_json w) as [data | fault] eqn:Hdata.
    + assert (Hno : ∀ lang image, ¬ payload (decoded w data) lang image).
      { intros lang image Hpay. apply Hnone. by exists data, lang, image. }
      rewrite (app_serve_decoded _ _ _ _ _ Hdata),
        (standalone_serve_decoded _ _ _ _ Hdata). cbn [as_json snd].
      exact (proj1 (decoded_body_validation client api_key (decoded w data) db)
               Hno).
    + rewrite (standalone_serve_fault _ _ _ _ Hdata).
      split; [apply (app_serve_fault _ _ _ _ _ Hdata) | done].
  - intros data Hdata Hmiss.
    destruct (proj2 (decoded_body_validation client api_key (decoded w data) db)
                Hmiss) as [(_ & Hst & Happ) Hplain].
    rewrite (app_serve_decoded _ _ _ _ _ Hdata),
      (standalone_serve_decoded _ _ _ _ Hdata).
    split; [exact Hst |]. split; [| by rewrite Hplain].
    intros u Hauth. by rewrite (Happ u Hauth).
  - intros data Hdata Htruthy Hdict.
    destruct (non_object_body_raises client api_key (decoded w data) db
                Htruthy Hdict) as [Happ Hplain].
    rewrite (app_serve_decoded _ _ _ _ _ Hdata),
      (standalone_serve_decoded _ _ _ _ Hdata).
    split; [| by rewrite Hplain]. intros u Hauth. by rewrite (Happ u Hauth).
  - intros fault Hfault. split; [| by apply standalone_serve_fault].
    apply (app_serve_fault _ _ _ _ _ Hfault).
Qed.

Lemma incomplete_request_carries_no_fields :
  ¬ carries_fields incomplete_wire_request.
Proof.
  intros (data & lang & image & Hdata & (_ & _ & Himage & _ & Hti)).
  injection Hdata as <-. cbn in Himage. injection Himage as <-. discriminate.
Qed.

Lemma validation_precedes_cost_witness :
  ¬ carries_fields incomplete_wire_request ∧
  (App.serve_analyze_image describing_client sample_key incomplete_wire_request
     (Some ∅)).2 = Some ∅ ∧
  missing_fields (decoded incomplete_wire_request (JObj [("lang", JStr "en")])) ∧
  wire_authorized sample_key incomplete_wire_request "u1" ∧
  App.serve_analyze_image describing_client sample_key incomplete_wire_request
    (ledger_with 1)
  = (JsonBody (error_body "Missing required fields", 422), ledger_with 1) ∧
  truthy (JArr [JNum 1]) = true ∧ is_dict (JArr [JNum 1]) = false ∧
  Standalone.serve_analyze_image describing_client list_wire_request
    (ledger_with 1)
  = (JsonBody (error_body "Internal server error", 500), ledger_with 1) ∧
  App.serve_analyze_image describing_client sample_key malformed_request
    (ledger_with 1)
  = (ErrorPage 400, ledger_with 1).
Proof.
  assert (Hauth : wire_authorized sample_key incomplete_wire_request "u1")
    by (repeat split).
  assert (Hauth' : wire_authorized sample_key malformed_request "u1")
    by (repeat split).
  destruct (validation_precedes_cost describing_client sample_key
              incomplete_wire_request (Some ∅)) as (Hframe & _).
  destruct (validation_precedes_cost describing_client sample_key
              incomplete_wire_request (ledger_with 1)) as (_ & Hmiss & _).
  destruct (validation_precedes_cost describing_client sample_key
              list_wire_request (ledger_with 1)) as (_ & _ & Hlist & _).
  destruct (validation_precedes_cost describing_client sample_key
              malformed_request (ledger_with 1)) as (_ & _ & _ & Hbad).
  split; [exact incomplete_request_carries_no_fields |].
  split; [exact (proj1 (Hframe incomplete_request_carries_no_fields)) |].
  split; [exact incomplete_request_missing |]. split; [exact Hauth |].
  split; [exact (proj1 (proj2 (Hmiss _ eq_refl incomplete_request_missing))
                   "u1" Hauth) |].
  split; [reflexivity |]. split; [reflexivity |].
  split; [exact (proj2 (Hlist _ eq_refl eq_refl eq_refl)) |].
  exact (proj1 (Hbad BadRequest eq_refl) "u1" Hauth').
Defined.

Lemma error_response_shape (out : response * database) :
  (out.1.2 ≠ 200 → is_error_body out.1.1) →
  wire_status (as_json out).1 ≠ 200 →
  ∃ msg status, (as_json out).1 = JsonBody (error_body msg, status).
Proof.
  destruct out as [[body status] db']. cbn. intros Hshape Hstatus.
  destruct (Hshape Hstatus) as [msg ->]. by exists msg, status.
Qed.

(** C8, amended: a request to [GET /credits] or [POST /analyze/image]
    that is not answered with 200 gets a JSON body with the single field
    [error], a string, with one exception: when [POST /analyze/image]
    receives a body that [request.json] cannot decode, the answer is Flask's
    own page for 400 or 415.  For a fault of the store inside the gate, and
    for a collaborator fault other than an over-long completion, the string
    is the text of the exception, with status 500 (402 for the denial); the
    generic message answers only faults that leave a view, such as a balance
    query on a database without the table. *)
Theorem error_bodies client api_key (w : wire_request) (db : database) :
  ((wire_status (App.serve_analyze_image client api_key w db).1 ≠ 200 →
    (∃ msg status, (App.serve_analyze_image client api_key w db).1
                   = JsonBody (error_body msg, status)) ∨
    (∃ fault, wire_json w = inr fault ∧
              (App.serve_analyze_image client api_key w db).1
              = ErrorPage (fault_status fault))) ∧
   (wire_status (Standalone.serve_analyze_image client w db).1 ≠ 200 →
    (∃ msg status, (Standalone.serve_analyze_image client w db).1
                   = JsonBody (error_body msg, status)) ∨
    (∃ fault, wire_json w = inr fault ∧
              (Standalone.serve_analyze_image client w db).1
              = ErrorPage (fault_status fault))) ∧
   (wire_status (App.serve_credits_left api_key w db).1 ≠ 200 →
    ∃ msg status, (App.serve_credits_left api_key w db).1
                  = JsonBody (error_body msg, status)) ∧
   (wire_status (Standalone.serve_credits_left w db).1 ≠ 200 →
    ∃ msg status, (Standalone.serve_credits_left w db).1
                  = JsonBody (error_body msg, status))) ∧
  (∀ fault, wire_json w = inr fault →
     (∀ user_id, wire_authorized api_key w user_id →
        App.serve_analyze_image client api_key w db
        = (ErrorPage (fault_status fault), db)) ∧
     Standalone.serve_analyze_image client w db
     = (ErrorPage (fault_status fault), db)) ∧
  (∀ data user_id lang image e,
     wire_json w = inl data → wire_authorized api_key w user_id →
     payload (decoded w data) lang image →
     (require_credits user_id db).1 = Raise e →
     (App.serve_analyze_image client api_key w db).1
     = JsonBody (error_body (str e), if is_value_error e then 402 else 500)) ∧
  (∀ data user_id lang image e,
     wire_json w = inl data → wire_authorized api_key w user_id →
     payload (decoded w data) lang image →
     (require_credits user_id db).1 = Return tt →
     process_image_recognition client lang image = Raise e →
     is_length_finish e = false →
     (App.serve_analyze_image client api_key w db).1
     = JsonBody (error_body (str e), 500)) ∧
  (∀ user_id, wire_authorized api_key w user_id →
     App.serve_credits_left api_key w None
     = (JsonBody (error_body "Internal server error", 500), None)).
Proof.
  split; [| split; [| split; [| split]]].
  - split; [| split; [| split]].
    + destruct (wire_json w) as [data | fault] eqn:Hdata.
      * rewrite (app_serve_decoded _ _ _ _ _ Hdata). intros Hst. left.
        apply error_response_shape; [| exact Hst].
        apply (decoded_error_bodies client api_key (decoded w data) db).
      * intros _.
        destruct (proj1 (proj2 (app_serve_fault client api_key w fault db Hdata)))
          as [[msg Hmsg] | Hpage].
        -- left. by exists msg, 422.
        -- right. by exists fault.
    + destruct (wire_json w) as [data | fault] eqn:Hdata.
      * rewrite (standalone_serve_decoded _ _ _ _ Hdata). intros Hst. left.
        apply error_response_shape; [| exact Hst].
        apply (decoded_error_bodies client api_key (decoded w data) db).
      * intros _. right. exists fault.
        by rewrite (standalone_serve_fault _ _ _ _ Hdata).
    + unfold App.serve_credits_left. apply error_response_shape.
      apply (decoded_error_bodies client api_key (decoded w JNull) db).
    + unfold Standalone.serve_credits_left. apply error_response_shape.
      apply (decoded_error_bodies client api_key (decoded w JNull) db).
  - intros fault Hfault. split; [| by apply standalone_serve_fault].
    apply (app_serve_fault _ _ _ _ _ Hfault).
  - intros data u lang image e Hdata Hauth Hpay Hraise.
    rewrite (app_serve_decoded _ _ _ _ _ Hdata). cbn [as_json fst].
    f_equal.
    exact (proj1 (proj2 (decoded_error_bodies client api_key (decoded w data) db))
             u lang image e Hauth Hpay Hraise).
  - intros data u lang image e Hdata Hauth Hpay Hadm Hraise Hlen.
    rewrite (app_serve_decoded _ _ _ _ _ Hdata). cbn [as_json fst].
    f_equal.
    exact (proj1 (proj2 (proj2 (decoded_error_bodies client api_key
                                  (decoded w data) db)))
             u lang image e Hauth Hpay Hadm Hraise Hlen).
  - intros u Hauth. unfold App.serve_credits_left.
    by rewrite (proj2 (proj2 (proj2 (decoded_error_bodies client api_key
                                       (decoded w JNull) db))) u Hauth).
Qed.

Lemma error_bodies_witness :
  wire_json malformed_request = inr BadRequest ∧
  wire_authorized sample_key malformed_request "u1" ∧
  App.serve_analyze_image failing_client sample_key malformed_request
    (ledger_with 5)
  = (ErrorPage 400, ledger_with 5) ∧
  wire_authorized sample_key sample_wire_request "u1" ∧
  payload (decoded sample_wire_request
             (JObj [("lang", JStr "en"); ("image", JStr "aGVsbG8=")]))
    (JStr "en") (JStr "aGVsbG8=") ∧
  (require_credits "u1" None).1 = Raise no_such_table ∧
  (App.serve_analyze_image failing_client sample_key sample_wire_request None).1
  = JsonBody (error_body "no such table: user_credits", 500) ∧
  (require_credits "u1" (ledger_with 5)).1 = Return tt ∧
  process_image_recognition failing_client (JStr "en") (JStr "aGVsbG8=")
  = Raise (OtherException "Connection error.") ∧
  (App.serve_analyze_image failing_client sample_key sample_wire_request
     (ledger_with 5)).1
  = JsonBody (error_body "Connection error.", 500) ∧
  wire_status (App.serve_analyze_image failing_client sample_key
                 sample_wire_request (ledger_with 5)).1 ≠ 200 ∧
  ((∃ msg status,
      (App.serve_analyze_image failing_client sample_key sample_wire_request
         (ledger_with 5)).1 = JsonBody (error_body msg, status)) ∨
   (∃ fault, wire_json sample_wire_request = inr fault ∧
      (App.serve_analyze_image failing_client sample_key sample_wire_request
         (ledger_with 5)).1 = ErrorPage (fault_status fault))) ∧
  App.serve_credits_left sample_key sample_wire_request None
  = (JsonBody (error_body "Internal server error", 500), None).
Proof.
  destruct (error_bodies failing_client sample_key malformed_request
              (ledger_with 5)) as (_ & Hpage & _).
  destruct (error_bodies failing_client sample_key sample_wire_request None)
    as (_ & _ & Hgate & _ & Hescape).
  destruct (error_bodies failing_client sample_key sample_wire_request
              (ledger_with 5)) as ((Hshape & _) & _ & _ & Hcollab & _).
  assert (Hbad : wire_authorized sample_key malformed_request "u1")
    by (repeat split).
  assert (Hauth : wire_authorized sample_key sample_wire_request "u1")
    by (repeat split).
  assert (Hpay : payload (decoded sample_wire_request
                   (JObj [("lang", JStr "en"); ("image", JStr "aGVsbG8=")]))
                   (JStr "en") (JStr "aGVsbG8=")) by (repeat split).
  assert (Hraise : (require_credits "u1" None).1 = Raise no_such_table)
    by reflexivity.
  assert (Hadm : (require_credits "u1" (ledger_with 5)).1 = Return tt)
    by reflexivity.
  assert (Hfail : process_image_recognition failing_client
                    (JStr "en") (JStr "aGVsbG8=")
                  = Raise (OtherException "Connection error.")) by reflexivity.
  assert (Hstatus :
    wire_status (App.serve_analyze_image failing_client sample_key
                   sample_wire_request (ledger_with 5)).1 ≠ 200)
    by (vm_compute; discriminate).
  split; [reflexivity |]. split; [exact Hbad |].
  split; [exact (proj1 (Hpage BadRequest eq_refl) "u1" Hbad) |].
  split; [exact Hauth |]. split; [exact Hpay |]. split; [exact Hraise |].
  split; [exact (Hgate _ "u1" _ _ _ eq_refl Hauth Hpay Hraise) |].
  split; [exact Hadm |]. split; [exact Hfail |].
  split; [exact (Hcollab _ "u1" _ _ _ eq_refl Hauth Hpay Hadm Hfail eq_refl) |].
  split; [exact Hstatus |]. split; [exact (Hshape Hstatus) |].
  exact (Hescape "u1" Hauth).
Defined.

(** X15: the status codes of the routes, for every request as it arrives.
    [POST /analyze/image] of [src/app/server.py] answers 400, 402, 415, 422
    or 500 and never 200; that of [src/server.py] answers 200, 400, 402, 415,
    422 or 500; both [GET /credits] answer 200, 422 or 500. *)
Theorem status_codes client api_key (w : wire_request) (db : database) :
  (wire_status (App.serve_analyze_image client api_key w db).1 = 400 ∨
   wire_status (App.serve_analyze_image client api_key w db).1 = 402 ∨
   wire_status (App.serve_analyze_image client api_key w db).1 = 415 ∨
   wire_status (App.serve_analyze_image client api_key w db).1 = 422 ∨
   wire_status (App.serve_analyze_image client api_key w db).1 = 500) ∧
  (wire_status (Standalone.serve_analyze_image client w db).1 = 200 ∨
   wire_status (Standalone.serve_analyze_image client w db).1 = 400 ∨
   wire_status (Standalone.serve_analyze_image client w db).1 = 402 ∨
   wire_status (Standalone.serve_analyze_image client w db).1 = 415 ∨
   wire_status (Standalone.serve_analyze_image client w db).1 = 422 ∨
   wire_status (Standalone.serve_analyze_image client w db).1 = 500) ∧
  (wire_status (App.serve_credits_left api_key w db).1 = 200 ∨
   wire_status (App.serve_credits_left api_key w db).1 = 422 ∨
   wire_status (App.serve_credits_left api_key w db).1 = 500) ∧
  (wire_status (Standalone.serve_credits_left w db).1 = 200 ∨
   wire_status (Standalone.serve_credits_left w db).1 = 422 ∨
   wire_status (Standalone.serve_credits_left w db).1 = 500).
Proof.
  split; [| split; [| split]].
  - destruct (wire_json w) as [data | fault] eqn:Hdata.
    + rewrite (app_serve_decoded _ _ _ _ _ Hdata). cbn [as_json fst wire_status].
      destruct (proj1 (decoded_status_codes client api_key (decoded w data) db))
        as [-> | [-> | ->]]; auto.
    + destruct (proj1 (proj2 (app_serve_fault client api_key w fault db Hdata)))
        as [[msg ->] | ->]; cbn; [auto |]. destruct fault; cbn; auto.
  - destruct (wire_json w) as [data | fault] eqn:Hdata.
    + rewrite (standalone_serve_decoded _ _ _ _ Hdata).
      cbn [as_json fst wire_status].
      destruct (proj1 (proj2 (decoded_status_codes client api_key
                                (decoded w data) db)))
        as [-> | [-> | [-> | ->]]]; auto 6.
    + rewrite (standalone_serve_fault _ _ _ _ Hdata). destruct fault; cbn; auto.
  - exact (proj1 (proj2 (proj2 (decoded_status_codes client api_key
                                  (decoded w JNull) db)))).
  - exact (proj2 (proj2 (proj2 (decoded_status_codes client api_key
                                  (decoded w JNull) db)))).
Qed.
